(** * go-validot: a shallow embedding of the validation engine and its
      built-in plugins, with the properties of the specification.

    Source files embedded here:
    - the [validot] package ([Validator], [NewValidator],
      [loadBuiltInPlugins], [ValidateDotEnv], [loadEnvFile]);
    - [plugins/boolean_validation.go], [plugins/enum_validation.go]
      (which also holds the IP-address plugin), the URL plugin and the
      [ValidationPlugin] interface.

    Go strings are byte sequences; they are modelled by [string], whose
    characters are 8-bit [ascii] values. *)

From Stdlib Require Import ZArith NArith Ascii String List Lia Bool.
From stdpp Require Import base option list gmap strings fin_maps pretty.

Local Open Scope string_scope.

(** ** The Go standard library, as far as the program calls it *)

(** The functions of Go's standard library are not part of the repository.
    Those that work byte by byte are written out below after the library's
    own code.  The parts that need the Unicode tables, the verb machinery
    of [fmt] or the URL grammar are left to the members of [GoStdlib]: each
    member stands for what the library computes once the byte-wise code
    hands over to it. *)

Record URL := { Scheme : string; Host : string }.

Class GoStdlib := {
  (** [strings.Map(unicode.ToLower, s)], taken when [s] is not all ASCII *)
  unicode_ToLower : string -> string;
  (** [strings.TrimFunc(s, unicode.IsSpace)] *)
  unicode_TrimFunc_IsSpace : string -> string;
  (** [strings.TrimRightFunc(s, unicode.IsSpace)] *)
  unicode_TrimRightFunc_IsSpace : string -> string;
  (** the [hasUnicode] part of [strings.EqualFold] on the remaining input *)
  unicode_EqualFold : string -> string -> bool;
  (** the quoted form [strconv.Quote] gives to input starting at a
      non-ASCII byte (without the surrounding quotes) *)
  strconv_quote_runes : string -> string;
  (** what [fmt] prints for a format that starts at a [%] when no operand
      is supplied *)
  fmt_verbs_noargs : string -> string;
  (** [net/url.Parse]; [None] when it returns an error *)
  url_Parse : string -> option URL
}.

Module bytes.

Definition code (c : ascii) : N := N_of_ascii c.

  (** [utf8.RuneSelf] *)
Definition RuneSelf : N := 128.

Definition isASCII (c : ascii) : bool := (code c <? RuneSelf)%N.

Definition isUpper (c : ascii) : bool :=
    ((65 <=? code c) && (code c <=? 90))%N.

  (** [c + 'a' - 'A'] *)
Definition lower (c : ascii) : ascii :=
    if isUpper c then ascii_of_N (code c + 32) else c.

  (** [asciiSpace] of package [strings]: tab, newline, vertical tab, form
      feed, carriage return and space *)
Definition asciiSpace (c : ascii) : bool :=
    ((code c =? 9) || (code c =? 10) || (code c =? 11) || (code c =? 12)
     || (code c =? 13) || (code c =? 32))%N.

Definition isDigit (c : ascii) : bool :=
    ((48 <=? code c) && (code c <=? 57))%N.

Definition quote : ascii := ascii_of_N 34.
Definition backslash : ascii := ascii_of_N 92.
Definition percent : ascii := ascii_of_N 37.

Definition hexdigit (n : N) : ascii :=
    if (n <? 10)%N then ascii_of_N (48 + n) else ascii_of_N (87 + n).

End bytes.

Module strings.

Fixpoint all (f : ascii -> bool) (s : string) : bool :=
    match s with
    | EmptyString => true
    | String c s' => f c && all f s'
    end.

Fixpoint any (f : ascii -> bool) (s : string) : bool :=
    match s with
    | EmptyString => false
    | String c s' => f c || any f s'
    end.

Fixpoint map (f : ascii -> ascii) (s : string) : string :=
    match s with
    | EmptyString => EmptyString
    | String c s' => String (f c) (map f s')
    end.

  (** [strings.Join(elems, sep)] *)
Fixpoint Join (elems : list string) (sep : string) : string :=
    match elems with
    | [] => ""
    | [e] => e
    | e :: rest => e ++ sep ++ Join rest sep
    end.

Section with_stdlib.
Context `{GoStdlib}.

    (** [strings.ToLower]: the ASCII-only path is the library's own
        optimisation; a string with a byte of [RuneSelf] or more goes
        through the Unicode mapping. *)
Definition ToLower (s : string) : string :=
      if all bytes.isASCII s then
        if any bytes.isUpper s then map bytes.lower s else s
      else unicode_ToLower s.

    (** First loop of [strings.TrimSpace]: skip leading ASCII space; [inr]
        is the early return through [TrimFunc]. *)
Fixpoint TrimSpace_start (s : string) : string + string :=
      match s with
      | EmptyString => inl EmptyString
      | String c s' =>
          if negb (bytes.isASCII c) then inr (unicode_TrimFunc_IsSpace s)
          else if bytes.asciiSpace c then TrimSpace_start s'
          else inl s
      end.

    (** Second loop of [strings.TrimSpace], on the reversed remainder
        [s[start:]]: [r] lists the bytes from the last one backwards. *)
Fixpoint TrimSpace_stop (r : list ascii) : string :=
      match r with
      | [] => EmptyString
      | c :: r' =>
          if negb (bytes.isASCII c)
          then unicode_TrimRightFunc_IsSpace (string_of_list_ascii (rev r))
          else if bytes.asciiSpace c then TrimSpace_stop r'
          else string_of_list_ascii (rev r)
      end.

    (** [strings.TrimSpace] *)
Definition TrimSpace (s : string) : string :=
      match TrimSpace_start s with
      | inr t => t
      | inl rest => TrimSpace_stop (rev (list_ascii_of_string rest))
      end.

    (** [strings.EqualFold]: the ASCII loop; at the first position where
        either byte is non-ASCII the remaining input goes to the Unicode
        comparison. *)
Fixpoint EqualFold (s t : string) : bool :=
      match s, t with
      | String sr s', String tr t' =>
          if (bytes.RuneSelf <=? N.lor (bytes.code sr) (bytes.code tr))%N
          then unicode_EqualFold s t
          else if (bytes.code tr =? bytes.code sr)%N then EqualFold s' t'
          else
            let '(lo, hi) :=
              if (bytes.code tr <? bytes.code sr)%N then (tr, sr) else (sr, tr) in
            if bytes.isUpper lo && (bytes.code hi =? bytes.code lo + 32)%N
            then EqualFold s' t'
            else false
      | EmptyString, EmptyString => true
      | _, _ => false
      end.

End with_stdlib.

End strings.

Module strconv.

  (** What [appendEscapedRune] writes for one ASCII byte inside double
      quotes. *)
Definition escape_ascii (c : ascii) : string :=
    let n := bytes.code c in
    if ((n =? 34) || (n =? 92))%N then String bytes.backslash (String c "")
    else if ((32 <=? n) && (n <? 127))%N then String c ""
    else if (n =? 7)%N then "\a"
    else if (n =? 8)%N then "\b"
    else if (n =? 12)%N then "\f"
    else if (n =? 10)%N then "\n"
    else if (n =? 13)%N then "\r"
    else if (n =? 9)%N then "\t"
    else if (n =? 11)%N then "\v"
    else "\x" ++ String (bytes.hexdigit (n / 16)) (String (bytes.hexdigit (n mod 16)) "").

Section with_stdlib.
Context `{GoStdlib}.

Fixpoint quote_body (s : string) : string :=
      match s with
      | EmptyString => EmptyString
      | String c s' =>
          if bytes.isASCII c then escape_ascii c ++ quote_body s'
          else strconv_quote_runes s
      end.

    (** [strconv.Quote], which the verb [%q] applies to a string *)
Definition Quote (s : string) : string :=
      String bytes.quote (quote_body s ++ String bytes.quote "").

End with_stdlib.

End strconv.

(** Go's [error] values: the engine and the tests only ever read the
    message. *)
Record error := errorString { Error : string }.

Module fmt.

  (** [%v] of a [[]string] *)
Definition v_strings (l : list string) : string :=
    "[" ++ strings.Join l " " ++ "]".

  (** [%v] of a [bool] *)
Definition v_bool (b : bool) : string := if b then "true" else "false".

  (** [%d] of an [int] that is a length *)
Definition d_nat (n : nat) : string := pretty n.

Section with_stdlib.
Context `{GoStdlib}.

    (** [fmt.Sprintf(format)] without operands: bytes are copied up to the
        first [%]. *)
Fixpoint Sprintf0 (format : string) : string :=
      match format with
      | EmptyString => EmptyString
      | String c rest =>
          if (bytes.code c =? 37)%N then fmt_verbs_noargs format
          else String c (Sprintf0 rest)
      end.

    (** [fmt.Errorf(format)] without operands *)
Definition Errorf0 (format : string) : error :=
      errorString (Sprintf0 format).

End with_stdlib.

End fmt.

(** ** Package [plugins] *)

(** The [ValidationPlugin] interface.  [Validate] returns the pair
    [(handled, err)]; a [nil] error is [None].  Plugins are values whose
    methods are functions of their arguments. *)
Class ValidationPlugin (P : Type) := {
  Validate : P -> string -> string -> bool * option error;
  Name : P -> string
}.

(** An interface value: a dynamic type, its method set and the value. *)
Record plugin := Plugin {
  plugin_type : Type;
  plugin_methods : ValidationPlugin plugin_type;
  plugin_self : plugin_type
}.

Definition plugin_Validate (p : plugin) (key value : string) : bool * option error :=
  @Validate _ (plugin_methods p) (plugin_self p) key value.

Definition plugin_Name (p : plugin) : string :=
  @Name _ (plugin_methods p) (plugin_self p).

Module BooleanValidationPlugin.

Record t := {
    Key : string;
    AcceptedValues : list string;
    Standardize : bool
  }.

Section with_stdlib.
Context `{GoStdlib}.

    (** The loop that sets [valid] and breaks at the first match. *)
Fixpoint valid_loop (normalizedValue : string) (accepted : list string) : bool :=
      match accepted with
      | [] => false
      | a :: rest =>
          if String.eqb normalizedValue (strings.ToLower a) then true
          else valid_loop normalizedValue rest
      end.

Definition Validate (p : t) (key value : string) : bool * option error :=
      if negb (String.eqb key (Key p)) then (false, None)
      else
        let normalizedValue := strings.ToLower (strings.TrimSpace value) in
        let valid := valid_loop normalizedValue (AcceptedValues p) in
        if negb valid then
          (true, Some (errorString
             ("value for key " ++ strconv.Quote key
              ++ " must be a boolean (accepted values: "
              ++ fmt.v_strings (AcceptedValues p) ++ ")")))
        else
          (* the body of [if p.Standardize] is empty *)
          if Standardize p then (true, None) else (true, None).

Definition Name (p : t) : string := "BooleanValidationPlugin".

#[export] Instance plugin_methods : ValidationPlugin t :=
      Build_ValidationPlugin t Validate Name.

End with_stdlib.

End BooleanValidationPlugin.

Module EnumValidationPlugin.

Record t := {
    Key : string;
    AllowedValues : list string;
    CaseSensitive : bool
  }.

Section with_stdlib.
Context `{GoStdlib}.

    (** The loop over [p.AllowedValues]; [true] is the [return true, nil]
        inside it. *)
Fixpoint allowed_loop (caseSensitive : bool) (value : string)
        (allowed : list string) : bool :=
      match allowed with
      | [] => false
      | a :: rest =>
          if caseSensitive then
            if String.eqb value a then true
            else allowed_loop caseSensitive value rest
          else
            if strings.EqualFold value a then true
            else allowed_loop caseSensitive value rest
      end.

Definition Validate (p : t) (key value : string) : bool * option error :=
      if negb (String.eqb key (Key p)) then (false, None)
      else if allowed_loop (CaseSensitive p) value (AllowedValues p)
      then (true, None)
      else (true, Some (errorString
              ("value for key " ++ strconv.Quote key ++ " must be one of "
               ++ fmt.v_strings (AllowedValues p)))).

Definition Name (p : t) : string := "EnumValidationPlugin".

#[export] Instance plugin_methods : ValidationPlugin t :=
      Build_ValidationPlugin t Validate Name.

End with_stdlib.

End EnumValidationPlugin.

(** ** Package [net] of the standard library: addresses and networks *)

Module net.

Local Open Scope Z_scope.

(** [net.IP] is a byte slice of length 4 or 16; a [nil] slice is [None]
    where one can occur. *)
Definition IP := list Z.

Definition IPv4len : nat := 4.
Definition IPv6len : nat := 16.

Record IPNet := { IPNet_IP : IP; Mask : list Z }.

(** [netip.Addr] without zone: the two address families. *)
Inductive Addr :=
| Addr4 (fields : list Z)
| Addr6 (bytes16 : list Z).

Definition v4InV6Prefix : list Z := [0;0;0;0;0;0;0;0;0;0;255;255].

Definition As16 (a : Addr) : IP :=
  match a with
  | Addr4 fields => (v4InV6Prefix ++ fields)%list
  | Addr6 b => b
  end.

Definition BitLen (a : Addr) : Z :=
  match a with Addr4 _ => 32 | Addr6 _ => 128 end.

Definition digit (c : ascii) : Z := Z.of_N (bytes.code c) - 48.

Definition is_dot (c : ascii) : bool := (bytes.code c =? 46)%N.
Definition is_colon (c : ascii) : bool := (bytes.code c =? 58)%N.

(** The loop of [parseIPv4Fields]: [prev] is the byte before the current
    one ([None] at index 0); [fields] collects the octets completed so
    far, so [pos] is its length. *)
Fixpoint parseIPv4Fields_loop (s : string) (prev : option ascii)
    (val : Z) (digLen : nat) (fields : list Z) : option (list Z) :=
  match s with
  | EmptyString =>
      if (length fields <? 3)%nat then None
      else Some (fields ++ [val])%list
  | String c rest =>
      if bytes.isDigit c then
        if (digLen =? 1)%nat && (val =? 0) then None
        else
          let val' := val * 10 + digit c in
          if 255 <? val' then None
          else parseIPv4Fields_loop rest (Some c) val' (S digLen) fields
      else if is_dot c then
        if match prev with None => true | Some p => is_dot p end
           || match rest with EmptyString => true | _ => false end
        then None
        else if (length fields =? 3)%nat then None
        else parseIPv4Fields_loop rest (Some c) 0 0%nat (fields ++ [val])%list
      else None
  end.

Definition parseIPv4Fields (s : string) : option (list Z) :=
  parseIPv4Fields_loop s None 0 0%nat [].

Definition parseIPv4 (s : string) : option Addr :=
  Addr4 <$> parseIPv4Fields s.

Definition hexval (c : ascii) : option Z :=
  let n := Z.of_N (bytes.code c) in
  if (48 <=? n) && (n <=? 57) then Some (n - 48)
  else if (97 <=? n) && (n <=? 102) then Some (n - 97 + 10)
  else if (65 <=? n) && (n <=? 70) then Some (n - 65 + 10)
  else None.

(** The inner loop of [parseIPv6] that reads one group of hex digits:
    the result is the accumulator, the number of digits read, and the
    input left; [None] when a fifth digit or an overflow is met. *)
Fixpoint hexGroup (s : string) (off : nat) (acc : Z) : option (Z * nat * string) :=
  match s with
  | EmptyString => Some (acc, off, s)
  | String c rest =>
      match hexval c with
      | None => Some (acc, off, s)
      | Some d =>
          let acc' := Z.shiftl acc 4 + d in
          if (3 <? off)%nat then None
          else if 65535 <? acc' then None
          else hexGroup rest (S off) acc'
      end
  end.

(** The outer loop of [parseIPv6] ([for i < 16]); every round adds two to
    [i] or leaves the loop, so eight rounds are all there can be.  The
    result is the input left over, [i], the ellipsis position and the
    bytes written so far. *)
Fixpoint parseIPv6_loop (rounds : nat) (s : string) (i : nat)
    (ellipsis : option nat) (ip : list Z)
    : option (string * nat * option nat * list Z) :=
  match rounds with
  | O => Some (s, i, ellipsis, ip)
  | S rounds' =>
      if negb (i <? 16)%nat then Some (s, i, ellipsis, ip)
      else
        match hexGroup s 0 0 with
        | None => None
        | Some (acc, off, s') =>
            if (off =? 0)%nat then None
            else
              match s' with
              | String c _ =>
                  if is_dot c then
                    (* trailing embedded IPv4 *)
                    if (match ellipsis with None => true | Some _ => false end)
                       && negb (i =? 12)%nat then None
                    else if (16 <? i + 4)%nat then None
                    else
                      match parseIPv4Fields s with
                      | None => None
                      | Some f => Some (EmptyString, (i + 4)%nat, ellipsis, (ip ++ f)%list)
                      end
                  else
                    let ip' := (ip ++ [Z.shiftr acc 8; Z.land acc 255])%list in
                    let i' := (i + 2)%nat in
                    if negb (is_colon c) then None
                    else
                      match s' with
                      | String _ EmptyString => None
                      | String _ (String c2 s2 as s1) =>
                          if is_colon c2 then
                            match ellipsis with
                            | Some _ => None
                            | None =>
                                match s2 with
                                | EmptyString => Some (s2, i', Some i', ip')
                                | _ => parseIPv6_loop rounds' s2 i' (Some i') ip'
                                end
                            end
                          else parseIPv6_loop rounds' s1 i' ellipsis ip'
                      | EmptyString => None
                      end
              | EmptyString =>
                  Some (EmptyString, (i + 2)%nat, ellipsis,
                        (ip ++ [Z.shiftr acc 8; Z.land acc 255])%list)
              end
        end
  end.

Definition has_percent (s : string) : bool :=
  strings.any (fun c => (bytes.code c =? 37)%N) s.

(** [parseIPv6], for the callers that refuse a zone: an input with a [%]
    either fails in [parseIPv6] or carries a zone, which [ParseIP] and
    [ParseCIDR] both reject. *)
Definition parseIPv6 (s : string) : option Addr :=
  if has_percent s then None
  else
    let '(s0, ellipsis0) :=
      match s with
      | String c1 (String c2 rest) =>
          if is_colon c1 && is_colon c2 then (rest, Some 0%nat) else (s, None)
      | _ => (s, None)
      end in
    match ellipsis0, s0 with
    | Some _, EmptyString => Some (Addr6 (replicate 16 0))
    | _, _ =>
        match parseIPv6_loop 8 s0 0 ellipsis0 [] with
        | None => None
        | Some (remaining, i, ellipsis, ip) =>
            match remaining with
            | String _ _ => None
            | EmptyString =>
                if (i <? 16)%nat then
                  match ellipsis with
                  | None => None
                  | Some e =>
                      Some (Addr6 (take e ip ++ replicate (16 - i) 0 ++ drop e ip)%list)
                  end
                else
                  match ellipsis with
                  | Some _ => None
                  | None => Some (Addr6 ip)
                  end
            end
        end
    end.

(** [netip.ParseAddr], without zones: the first [.], [:] or [%] decides. *)
Fixpoint ParseAddr_scan (whole s : string) : option Addr :=
  match s with
  | EmptyString => None
  | String c rest =>
      if is_dot c then parseIPv4 whole
      else if is_colon c then parseIPv6 whole
      else if (bytes.code c =? 37)%N then None
      else ParseAddr_scan whole rest
  end.

Definition ParseAddr (s : string) : option Addr := ParseAddr_scan s s.

(** [net.ParseIP]: the 16-byte form of the address, or [nil]. *)
Definition ParseIP (s : string) : option IP := As16 <$> ParseAddr s.

Definition isZeros (p : list Z) : bool := forallb (Z.eqb 0) p.

Definition To4 (ip : IP) : option IP :=
  if (length ip =? IPv4len)%nat then Some ip
  else if (length ip =? IPv6len)%nat && isZeros (take 10 ip)
          && (nth 10 ip 0 =? 255) && (nth 11 ip 0 =? 255)
       then Some (drop 12 ip)
       else None.

Definition To16 (ip : IP) : option IP :=
  if (length ip =? IPv4len)%nat then Some (v4InV6Prefix ++ ip)%list
  else if (length ip =? IPv6len)%nat then Some ip
  else None.

(** [net.CIDRMask(ones, bits)] *)
Fixpoint CIDRMask_loop (l : nat) (n : Z) : list Z :=
  match l with
  | O => []
  | S l' =>
      if 8 <=? n then 255 :: CIDRMask_loop l' (n - 8)
      else Z.lxor 255 (Z.shiftr 255 n) :: CIDRMask_loop l' 0
  end.

Definition CIDRMask (ones bits : Z) : list Z :=
  CIDRMask_loop (Z.to_nat (bits / 8)) ones.

(** [IP.Mask] *)
Definition IP_Mask (ip : IP) (mask : list Z) : option IP :=
  let mask :=
    if (length mask =? IPv6len)%nat && (length ip =? IPv4len)%nat
       && forallb (Z.eqb 255) (take 12 mask)
    then drop 12 mask else mask in
  let ip :=
    if (length mask =? IPv4len)%nat && (length ip =? IPv6len)%nat
       && bool_decide (take 12 ip = v4InV6Prefix)
    then drop 12 ip else ip in
  if negb (length ip =? length mask)%nat then None
  else Some (zip_with Z.land ip mask).

(** [dtoi]: a decimal number at the start of [s]; the result is the
    number and the input left after it. *)
Fixpoint dtoi_loop (s : string) (n : Z) (i : nat) : option (Z * nat * string) :=
  match s with
  | String c rest =>
      if bytes.isDigit c then
        let n' := n * 10 + digit c in
        if 16777215 <=? n' then None else dtoi_loop rest n' (S i)
      else if (i =? 0)%nat then None else Some (n, i, s)
  | EmptyString => if (i =? 0)%nat then None else Some (n, i, s)
  end.

Fixpoint cut_slash (s : string) : option (string * string) :=
  match s with
  | EmptyString => None
  | String c rest =>
      if (bytes.code c =? 47)%N then Some (EmptyString, rest)
      else
        match cut_slash rest with
        | None => None
        | Some (a, b) => Some (String c a, b)
        end
  end.

(** [net.ParseCIDR]: the network of the result, [None] on error. *)
Definition ParseCIDR (s : string) : option IPNet :=
  match cut_slash s with
  | None => None
  | Some (addr, mask) =>
      match ParseAddr addr with
      | None => None
      | Some ipAddr =>
          match dtoi_loop mask 0 0 with
          | Some (n, _, EmptyString) =>
              if BitLen ipAddr <? n then None
              else
                let m := CIDRMask n (BitLen ipAddr) in
                match IP_Mask (As16 ipAddr) m with
                | None => None
                | Some ip => Some {| IPNet_IP := ip; Mask := m |}
                end
          | _ => None
          end
      end
  end.

(** [networkNumberAndMask] *)
Definition networkNumberAndMask (n : IPNet) : option (IP * list Z) :=
  let ip := match To4 (IPNet_IP n) with Some x => Some x
            | None => if (length (IPNet_IP n) =? IPv6len)%nat
                      then Some (IPNet_IP n) else None end in
  match ip with
  | None => None
  | Some ip =>
      if (length (Mask n) =? IPv4len)%nat then
        if (length ip =? IPv4len)%nat then Some (ip, Mask n) else None
      else if (length (Mask n) =? IPv6len)%nat then
        if (length ip =? IPv4len)%nat then Some (ip, drop 12 (Mask n))
        else Some (ip, Mask n)
      else None
  end.

(** [IPNet.Contains] *)
Definition Contains (n : IPNet) (ip : IP) : bool :=
  match networkNumberAndMask n with
  | None => false
  | Some (nn, m) =>
      let ip := match To4 ip with Some x => x | None => ip end in
      if negb (length ip =? length nn)%nat then false
      else
        forallb (fun '(a, b) => a =? b)
          (zip (zip_with Z.land nn m) (zip_with Z.land ip m))
  end.

End net.

Module IPAddressValidationPlugin.

Record t := {
  Key : string;
  AllowedIPVersions : list string;
  MustBePrivate : bool
}.

(** The CIDR literals of [isPrivateIP], in source order. *)
Definition privateCIDRs : list string :=
  ["10.0.0.0/8"; "172.16.0.0/12"; "192.168.0.0/16"; "::1/128"; "fc00::/7"].

(** [privateIPBlocks] after the first loop of [isPrivateIP]; the error of
    [ParseCIDR] is dropped there, and a [nil] block would make [Contains]
    dereference [nil], which none of the five literals causes. *)
Definition privateIPBlocks : list net.IPNet :=
  omap net.ParseCIDR privateCIDRs.

Definition isPrivateIP (ip : net.IP) : bool :=
  existsb (fun block => net.Contains block ip) privateIPBlocks.

Section with_stdlib.
Context `{GoStdlib}.

(** The [switch] inside the version loop: does this entry of
    [AllowedIPVersions] set [validVersion]? *)
Definition version_case (ip : net.IP) (version : string) : bool :=
  let v := strings.ToLower version in
  if String.eqb v "ipv4" then bool_decide (net.To4 ip <> None)
  else if String.eqb v "ipv6"
  then bool_decide (net.To16 ip <> None) && bool_decide (net.To4 ip = None)
  else false.

Fixpoint version_loop (ip : net.IP) (versions : list string) : bool :=
  match versions with
  | [] => false
  | version :: rest =>
      if version_case ip version then true else version_loop ip rest
  end.

Definition Validate (p : t) (key value : string) : bool * option error :=
  if negb (String.eqb key (Key p)) then (false, None)
  else
    match net.ParseIP (strings.TrimSpace value) with
    | None =>
        (true, Some (errorString
           ("value for key " ++ strconv.Quote key ++ " must be a valid IP address")))
    | Some ip =>
        if (0 <? length (AllowedIPVersions p))%nat
           && negb (version_loop ip (AllowedIPVersions p))
        then
          (true, Some (errorString
             ("value for key " ++ strconv.Quote key
              ++ " must be one of the following IP versions: "
              ++ fmt.v_strings (AllowedIPVersions p))))
        else if MustBePrivate p && negb (isPrivateIP ip) then
          (true, Some (errorString
             ("value for key " ++ strconv.Quote key ++ " must be a private IP address")))
        else (true, None)
    end.

Definition Name (p : t) : string := "IPAddressValidationPlugin".

#[export] Instance plugin_methods : ValidationPlugin t :=
  Build_ValidationPlugin t Validate Name.

End with_stdlib.

End IPAddressValidationPlugin.

Module URLValidationPlugin.

Record t := {
  Key : string;
  AllowedSchemes : list string
}.

Section with_stdlib.
Context `{GoStdlib}.

(** The loop over [p.AllowedSchemes] that sets [validScheme]. *)
Fixpoint scheme_loop (parsedScheme : string) (schemes : list string) : bool :=
  match schemes with
  | [] => false
  | scheme :: rest =>
      if strings.EqualFold parsedScheme scheme then true
      else scheme_loop parsedScheme rest
  end.

Definition invalid_URL (key : string) : error :=
  errorString ("value for key " ++ strconv.Quote key ++ " must be a valid URL").

Definition Validate (p : t) (key value : string) : bool * option error :=
  if negb (String.eqb key (Key p)) then (false, None)
  else
    match url_Parse value with
    | None => (true, Some (invalid_URL key))
    | Some parsedURL =>
        if String.eqb (Scheme parsedURL) "" || String.eqb (Host parsedURL) ""
        then (true, Some (invalid_URL key))
        else if (0 <? length (AllowedSchemes p))%nat
                && negb (scheme_loop (Scheme parsedURL) (AllowedSchemes p))
        then
          (true, Some (errorString
             ("URL scheme for key " ++ strconv.Quote key ++ " must be one of "
              ++ fmt.v_strings (AllowedSchemes p))))
        else (true, None)
    end.

Definition Name (p : t) : string := "URLValidationPlugin".

#[export] Instance plugin_methods : ValidationPlugin t :=
  Build_ValidationPlugin t Validate Name.

End with_stdlib.

End URLValidationPlugin.

(** ** The log sink (package [logrus]) *)

Module logrus.

Inductive Level :=
| PanicLevel | FatalLevel | ErrorLevel | WarnLevel | InfoLevel | DebugLevel | TraceLevel.

Definition level_num (l : Level) : nat :=
  match l with
  | PanicLevel => 0 | FatalLevel => 1 | ErrorLevel => 2 | WarnLevel => 3
  | InfoLevel => 4 | DebugLevel => 5 | TraceLevel => 6
  end.

(** A logger: its level and the entries it has written so far, oldest
    first.  Formatter, hooks and output stream stay outside the model. *)
Record Logger := { level : Level; written : list (Level * string) }.

Definition New : Logger := {| level := InfoLevel; written := [] |}.

Definition SetLevel (lg : Logger) (l : Level) : Logger :=
  {| level := l; written := written lg |}.

Definition IsLevelEnabled (lg : Logger) (l : Level) : bool :=
  (level_num l <=? level_num (level lg))%nat.

Definition Log (lg : Logger) (l : Level) (msg : string) : Logger :=
  if IsLevelEnabled lg l
  then {| level := level lg; written := (written lg ++ [(l, msg)])%list |}
  else lg.

End logrus.

(** ** Package [validot] *)

(** [Config], as the package declares it (the declaration is the text
    that follows the README in [src/README.md]). *)
Record Config := {
  RequireQuotes : bool;
  Verbose : bool;
  Logger : option logrus.Logger;
  Plugins : list plugin
}.

Record Validator := {
  config : Config;
  requiredKeys : gmap string bool;
  plugins : list plugin
}.

(** What lies outside the engine during one call: the file loader
    ([godotenv.Read] behind [loadEnvFile]) and the order in which the two
    [range] statements over maps visit the entries, which Go leaves
    unspecified. *)
Record World := {
  godotenv_Read : string -> gmap string string + error;
  range_envVars : gmap string string -> list (string * string);
  range_requiredKeys : gmap string bool -> list (string * bool)
}.

(** A [range] over a map visits every entry exactly once. *)
Definition World_ok (w : World) : Prop :=
  (forall m, range_envVars w m ≡ₚ map_to_list m) /\
  (forall m, range_requiredKeys w m ≡ₚ map_to_list m).

Definition set_Logger (lg : option logrus.Logger) (v : Validator) : Validator :=
  {| config := {| RequireQuotes := RequireQuotes (config v);
                  Verbose := Verbose (config v);
                  Logger := lg;
                  Plugins := Plugins (config v) |};
     requiredKeys := requiredKeys v;
     plugins := plugins v |}.

Definition set_requiredKeys (m : gmap string bool) (v : Validator) : Validator :=
  {| config := config v; requiredKeys := m; plugins := plugins v |}.

(** *** Statements of a method on [*Validator]

    A computation takes the validator's state and gives the new state
    with either a value to go on with ([inl]) or the error value the
    method has returned ([inr]; [None] is [nil]). *)
Module Stmt.

Definition M (A : Type) : Type := Validator -> Validator * (A + option error).

Definition ret {A} (a : A) : M A := fun v => (v, inl a).

Definition bind {A B} (m : M A) (k : A -> M B) : M B :=
  fun v => match m v with
           | (v', inl a) => k a v'
           | (v', inr e) => (v', inr e)
           end.

(** [return e] *)
Definition Return {A} (e : option error) : M A := fun v => (v, inr e).

Definition get : M Validator := fun v => (v, inl v).

Definition modify (f : Validator -> Validator) : M unit := fun v => (f v, inl tt).

Definition when (b : bool) (m : M unit) : M unit := if b then m else ret tt.

(** [for _, x := range l { body }] *)
Fixpoint for_range {A} (l : list A) (body : A -> M unit) : M unit :=
  match l with
  | [] => ret tt
  | x :: rest => bind (body x) (fun _ => for_range rest body)
  end.

(** A call of [v.config.Logger] at the given level; the logger is never
    [nil] when the engine logs. *)
Definition log (l : logrus.Level) (msg : string) : M unit :=
  modify (fun v =>
    set_Logger ((fun lg => logrus.Log lg l msg) <$> Logger (config v)) v).

(** [Infof] and [Errorf] with the message already formatted, and
    [Error], which prints its operand as it is. *)
Definition Infof (msg : string) : M unit := log logrus.InfoLevel msg.
Definition Errorf (msg : string) : M unit := log logrus.ErrorLevel msg.
Definition Error (msg : string) : M unit := log logrus.ErrorLevel msg.

End Stmt.

Notation "'let*' x ':=' m 'in' k" := (Stmt.bind m (fun x => k))
  (at level 10, x name, m at level 100, k at level 200, only parsing).
Notation "m ;;; k" := (Stmt.bind m (fun _ => k))
  (at level 100, k at level 200, right associativity, only parsing).

Section with_stdlib.
Context `{GoStdlib}.

Definition loadBuiltInPlugins : list plugin :=
  let urlPlugin :=
    {| URLValidationPlugin.Key := "API_URL";
       URLValidationPlugin.AllowedSchemes := ["https"] |} in
  let enumPlugin :=
    {| EnumValidationPlugin.Key := "ENVIRONMENT";
       EnumValidationPlugin.AllowedValues := ["DEVELOPMENT"; "STAGING"; "PRODUCTION"];
       EnumValidationPlugin.CaseSensitive := true |} in
  let boolPlugin :=
    {| BooleanValidationPlugin.Key := "ENABLE_DEBUG";
       BooleanValidationPlugin.AcceptedValues := ["true"; "false"; "1"; "0"; "yes"; "no"];
       BooleanValidationPlugin.Standardize := true |} in
  let ipPlugin :=
    {| IPAddressValidationPlugin.Key := "TRUSTED_PROXY_IP";
       IPAddressValidationPlugin.AllowedIPVersions := ["IPv4"; "IPv6"];
       IPAddressValidationPlugin.MustBePrivate := true |} in
  [ Plugin _ URLValidationPlugin.plugin_methods urlPlugin;
    Plugin _ EnumValidationPlugin.plugin_methods enumPlugin;
    Plugin _ BooleanValidationPlugin.plugin_methods boolPlugin;
    Plugin _ IPAddressValidationPlugin.plugin_methods ipPlugin ].

Definition NewValidator (config : Config) (requiredKeys : list string) : Validator :=
  let reqKeys := foldl (fun m key => <[key := false]> m) (∅ : gmap string bool) requiredKeys in
  let builtInPlugins := loadBuiltInPlugins in
  let allPlugins := (builtInPlugins ++ Plugins config)%list in
  {| config := config; requiredKeys := reqKeys; plugins := allPlugins |}.

(** [loadEnvFile] passes on what [godotenv.Read] returns. *)
Definition loadEnvFile (w : World) (filePath : string) : gmap string string + error :=
  match godotenv_Read w filePath with
  | inr err => inr err
  | inl envMap => inl envMap
  end.

(** Lines 88-95: a [nil] logger is replaced by a new one. *)
Definition init_Logger : Stmt.M unit :=
  let* v := Stmt.get in
  match Logger (config v) with
  | Some _ => Stmt.ret tt
  | None =>
      Stmt.modify (set_Logger (Some
        (logrus.SetLevel logrus.New
           (if Verbose (config v) then logrus.DebugLevel else logrus.InfoLevel))))
  end.

(** Lines 97-103 *)
Definition log_configuration : Stmt.M unit :=
  let* v := Stmt.get in
  Stmt.when (Verbose (config v))
    (Stmt.Infof "Validator Configuration:" ;;;
     Stmt.Infof ("  RequireQuotes: " ++ fmt.v_bool (RequireQuotes (config v))) ;;;
     Stmt.Infof ("  Verbose: " ++ fmt.v_bool (Verbose (config v))) ;;;
     Stmt.Infof ("  Number of Plugins: " ++ fmt.d_nat (length (plugins v))) ;;;
     Stmt.Infof "End of Configuration").

(** Lines 117-126: the ledger update for one key. *)
Definition mark_required (key : string) : Stmt.M unit :=
  let* v := Stmt.get in
  match requiredKeys v !! key with
  | Some _ =>
      Stmt.modify (set_requiredKeys (<[key := true]> (requiredKeys v))) ;;;
      Stmt.when (Verbose (config v))
        (Stmt.Infof ("  " ++ key ++ " is a required variable."))
  | None =>
      Stmt.when (Verbose (config v))
        (Stmt.Infof ("  " ++ key ++ " is an optional variable."))
  end.

(** Lines 129-140: the body of the loop over the plugins. *)
Definition apply_plugin (key value : string) (plugin : plugin) : Stmt.M unit :=
  let* v := Stmt.get in
  let '(handled, err) := plugin_Validate plugin key value in
  match err with
  | Some e =>
      (if Verbose (config v)
       then Stmt.Errorf ("Validation error for key " ++ key ++ " by "
                         ++ plugin_Name plugin ++ ": " ++ Error e)
       else Stmt.Errorf ("Validation error for key " ++ key ++ ": " ++ Error e)) ;;;
      Stmt.Return (Some e)
  | None =>
      Stmt.when (handled && Verbose (config v))
        (Stmt.Infof ("  [Validated by: " ++ plugin_Name plugin ++ "]"))
  end.

(** Lines 113-141: the body of the loop over the entries. *)
Definition process_entry (entry : string * string) : Stmt.M unit :=
  let '(key, value) := entry in
  let* v := Stmt.get in
  Stmt.when (Verbose (config v)) (Stmt.Infof ("Processing key: " ++ key)) ;;;
  mark_required key ;;;
  Stmt.for_range (plugins v) (apply_plugin key value).

(** Lines 144-149 *)
Definition missingKeys_of (visited : list (string * bool)) : list string :=
  foldl (fun missingKeys kf =>
           if negb (snd kf) then (missingKeys ++ [fst kf])%list else missingKeys)
        [] visited.

(** Lines 144-158 *)
Definition check_missing (w : World) : Stmt.M unit :=
  let* v := Stmt.get in
  let missingKeys := missingKeys_of (range_requiredKeys w (requiredKeys v)) in
  if (0 <? length missingKeys)%nat then
    let errMsg := "missing required keys: " ++ fmt.v_strings missingKeys in
    Stmt.Error errMsg ;;;
    Stmt.Return (Some (fmt.Errorf0 errMsg))
  else
    Stmt.Infof ".env file is valid." ;;;
    Stmt.Return None.

Definition ValidateDotEnv_body (w : World) (filePath : string) : Stmt.M unit :=
  init_Logger ;;;
  log_configuration ;;;
  Stmt.Infof ("Starting validation for file: " ++ filePath) ;;;
  match loadEnvFile w filePath with
  | inr err =>
      Stmt.Return (Some (errorString ("failed to load .env file: " ++ Error err)))
  | inl envVars =>
      Stmt.for_range (range_envVars w envVars) process_entry ;;;
      check_missing w
  end.

(** [(v *Validator) ValidateDotEnv(filePath)]: the state of the validator
    after the call and the error returned. *)
Definition ValidateDotEnv (w : World) (v : Validator) (filePath : string)
    : Validator * option error :=
  match ValidateDotEnv_body w filePath v with
  | (v', inr e) => (v', e)
  | (v', inl _) => (v', None)
  end.

End with_stdlib.

(** ** The engine without its log: what a run does to the ledger and
       which error it returns

    These definitions describe the run in terms of the registry, the
    entries in visiting order and the ledger alone; [ValidateDotEnv] is
    proved below to compute exactly this. *)

(** [mark_seen]: line 117-118, a key outside the required set is left out. *)
Definition mark_seen (key : string) (ledger : gmap string bool) : gmap string bool :=
  match ledger !! key with
  | Some _ => <[key := true]> ledger
  | None => ledger
  end.

Definition mark_all (keys : list string) (ledger : gmap string bool) : gmap string bool :=
  foldl (fun m k => mark_seen k m) ledger keys.

(** The error of the first plugin, in registry order, that returns one. *)
Fixpoint first_error (ps : list plugin) (key value : string) : option error :=
  match ps with
  | [] => None
  | p :: rest =>
      match snd (plugin_Validate p key value) with
      | Some e => Some e
      | None => first_error rest key value
      end
  end.

(** The loop over the entries: the ledger when the loop is left, and the
    error if it is left by [return err]. *)
Fixpoint scan (ps : list plugin) (entries : list (string * string))
    (ledger : gmap string bool) : gmap string bool * option error :=
  match entries with
  | [] => (ledger, None)
  | (key, value) :: rest =>
      match first_error ps key value with
      | Some e => (mark_seen key ledger, Some e)
      | None => scan ps rest (mark_seen key ledger)
      end
  end.

(** The parts of a validator that no statement of [ValidateDotEnv]
    assigns. *)
Definition frame (v : Validator) : bool * bool * list plugin * list plugin :=
  (RequireQuotes (config v), Verbose (config v), Plugins (config v), plugins v).

Definition set_RequireQuotes (b : bool) (v : Validator) : Validator :=
  {| config := {| RequireQuotes := b;
                  Verbose := Verbose (config v);
                  Logger := Logger (config v);
                  Plugins := Plugins (config v) |};
     requiredKeys := requiredKeys v;
     plugins := plugins v |}.

Definition with_RequireQuotes (b : bool) (c : Config) : Config :=
  {| RequireQuotes := b; Verbose := Verbose c; Logger := Logger c; Plugins := Plugins c |}.

(** A world in which the file holds the given mapping and both [range]
    statements follow the order of [map_to_list]. *)
Definition world_of (envVars : gmap string string) : World :=
  {| godotenv_Read := fun _ => inl envVars;
     range_envVars := map_to_list;
     range_requiredKeys := map_to_list |}.

(** A logging statement: it goes on, and changes the logger only. *)
Definition logs_only (m : Stmt.M unit) : Prop :=
  forall v, exists v', m v = (v', inl tt) /\ frame v' = frame v
                       /\ requiredKeys v' = requiredKeys v.

(** The error of lines 151-154 for a given list of missing keys. *)
Definition missing_error `{GoStdlib} (missingKeys : list string) : error :=
  fmt.Errorf0 ("missing required keys: " ++ fmt.v_strings missingKeys).

(** The ledger after a call of [ValidateDotEnv] and the error it returns,
    from the registry and the ledger before the call. *)
Definition run_outcome `{GoStdlib} (w : World) (ps : list plugin)
    (ledger : gmap string bool) (filePath : string)
    : gmap string bool * option error :=
  match loadEnvFile w filePath with
  | inr err =>
      (ledger, Some (errorString ("failed to load .env file: " ++ Error err)))
  | inl envVars =>
      match scan ps (range_envVars w envVars) ledger with
      | (ledger', Some e) => (ledger', Some e)
      | (ledger', None) =>
          let missing := missingKeys_of (range_requiredKeys w ledger') in
          (ledger', if (0 <? length missing)%nat
                    then Some (missing_error missing) else None)
      end
  end.

(** No plugin of [ps] returns an error for any of the entries. *)
Definition passes (ps : list plugin) (entries : list (string * string)) : Prop :=
  forall k val p, (k, val) ∈ entries -> p ∈ ps -> snd (plugin_Validate p k val) = None.

(** ** Caller-supplied plugins

    [Config.Plugins] takes any implementation of the interface.
    [CustomPlugin] is the implementation given by its two methods;
    [CacheSizeValidationPlugin] is the one of the package's tests. *)

Module CustomPlugin.

Record t := {
  validate : string -> string -> bool * option error;
  name : string
}.

#[export] Instance plugin_methods : ValidationPlugin t :=
  Build_ValidationPlugin t validate name.

Definition make (f : string -> string -> bool * option error) (n : string) : plugin :=
  Plugin t plugin_methods {| validate := f; name := n |}.

End CustomPlugin.

Module CacheSizeValidationPlugin.

Fixpoint digits (s : string) (n : Z) : option Z :=
  match s with
  | EmptyString => Some n
  | String c rest =>
      if bytes.isDigit c then digits rest (n * 10 + net.digit c)%Z else None
  end.

(** [strconv.Atoi] on a 64-bit platform: an optional sign, at least one
    decimal digit and nothing else, with a value that fits [int]. *)
Definition Atoi (s : string) : option Z :=
  let '(neg, body) :=
    match s with
    | String c rest =>
        if (bytes.code c =? 45)%N then (true, rest)
        else if (bytes.code c =? 43)%N then (false, rest)
        else (false, s)
    | EmptyString => (false, s)
    end in
  match body with
  | EmptyString => None
  | _ =>
      match digits body 0 with
      | None => None
      | Some n =>
          let n := if neg then (- n)%Z else n in
          if ((- 2 ^ 63 <=? n) && (n <=? 2 ^ 63 - 1))%Z then Some n else None
      end
  end.

Definition Validate (key value : string) : bool * option error :=
  if negb (String.eqb key "CACHE_SIZE") then (false, None)
  else
    match Atoi value with
    | None => (true, Some (errorString "CACHE_SIZE must be a numeric value"))
    | Some size =>
        if ((size <? 128) || (1024 <? size))%Z
        then (true, Some (errorString "CACHE_SIZE must be between 128 and 1024"))
        else (true, None)
    end.

Definition Name : string := "CacheSizeValidationPlugin".

Definition plugin : plugin := CustomPlugin.make Validate Name.

End CacheSizeValidationPlugin.

(** ** An instance of the library for evaluating examples

    The examples below only pass ASCII text without [%] to the library,
    so of the members only [url_Parse] is ever consulted.  [simple_url]
    reads the URLs of the form [scheme://host] with an optional path,
    where the host is made of letters, digits, [.] and [-]; it gives the
    scheme in lower case, as [url.Parse] does. *)

Module simple_url.

Definition isLetter (c : ascii) : bool :=
  bytes.isUpper c || ((97 <=? bytes.code c) && (bytes.code c <=? 122))%N.

Definition isHostByte (c : ascii) : bool :=
  isLetter c || bytes.isDigit c || (bytes.code c =? 45)%N || (bytes.code c =? 46)%N.

(** [getScheme]: letters, then digits and [+-.] after the first byte, up
    to the colon. *)
Fixpoint getScheme (s : string) (first : bool) : option (string * string) :=
  match s with
  | EmptyString => None
  | String c rest =>
      if isLetter c then
        match getScheme rest false with
        | Some (scheme, r) => Some (String c scheme, r)
        | None => None
        end
      else if bytes.isDigit c || (bytes.code c =? 43)%N || (bytes.code c =? 45)%N
              || (bytes.code c =? 46)%N then
        if first then None
        else
          match getScheme rest false with
          | Some (scheme, r) => Some (String c scheme, r)
          | None => None
          end
      else if (bytes.code c =? 58)%N then
        if first then None else Some (EmptyString, rest)
      else None
  end.

Fixpoint host_of (s : string) : option string :=
  match s with
  | EmptyString => Some EmptyString
  | String c rest =>
      if (bytes.code c =? 47)%N then
        if strings.all (fun c => isHostByte c || (bytes.code c =? 47)%N) rest
        then Some EmptyString else None
      else if isHostByte c then String c <$> host_of rest
      else None
  end.

Definition Parse (rawURL : string) : option URL :=
  match getScheme rawURL true with
  | Some (scheme, String c1 (String c2 authority)) =>
      if (bytes.code c1 =? 47)%N && (bytes.code c2 =? 47)%N then
        match host_of authority with
        | Some host =>
            Some {| Scheme := strings.map bytes.lower scheme; Host := host |}
        | None => None
        end
      else None
  | _ => None
  end.

End simple_url.

Definition example_stdlib : GoStdlib :=
  {| unicode_ToLower := fun s => s;
     unicode_TrimFunc_IsSpace := fun s => s;
     unicode_TrimRightFunc_IsSpace := fun s => s;
     unicode_EqualFold := String.eqb;
     strconv_quote_runes := fun s => s;
     fmt_verbs_noargs := fun s => s;
     url_Parse := simple_url.Parse |}.


(** ** Inputs of the examples *)

Definition example_config (extra : list plugin) : Config :=
  {| RequireQuotes := false; Verbose := false; Logger := None; Plugins := extra |}.



(** Case analysis on membership in an explicit list. *)
Ltac in_list H :=
  repeat (let E := fresh "E" in
          apply elem_of_cons in H as [E|H];
          [first [injection E as -> -> | subst] |]);
  [.. | apply elem_of_nil in H; destruct H].


(** A string without [%]: a format that [fmt] copies as it is. *)
Definition plain (s : string) : bool :=
  negb (strings.any (fun c => (bytes.code c =? 37)%N) s).

(** [DB_HOST=localhost] *)
Definition db_host_only : gmap string string := {[ "DB_HOST" := "localhost" ]}.

(** [CUSTOM_KEY=anything] *)
Definition custom_key_only : gmap string string := {[ "CUSTOM_KEY" := "anything" ]}.

(** ** Outcomes of a plugin, in the words of the specification *)

(** [rejected(reason)]: the plugin returns an error. *)
Definition rejects (r : bool * option error) : Prop := is_Some (snd r).

(** [accepted]: handled, no error. *)
Definition accepts (r : bool * option error) : Prop := r = (true, None).

(** [not_applicable]: not handled, no error. *)
Definition not_applicable (r : bool * option error) : Prop := r = (false, None).

(** The literals of the built-in Boolean plugin. *)
Definition boolean_literals : list string := ["true"; "false"; "1"; "0"; "yes"; "no"].

(** The values of the built-in Enum plugin. *)
Definition environments : list string := ["DEVELOPMENT"; "STAGING"; "PRODUCTION"].

Definition with_Standardize (b : bool) (p : BooleanValidationPlugin.t)
    : BooleanValidationPlugin.t :=
  {| BooleanValidationPlugin.Key := BooleanValidationPlugin.Key p;
     BooleanValidationPlugin.AcceptedValues := BooleanValidationPlugin.AcceptedValues p;
     BooleanValidationPlugin.Standardize := b |}.

(** The bytes below [utf8.RuneSelf], as numbers. *)
Definition ascii_codes : list N := List.map N.of_nat (seq 0 128).

(** One step of the ASCII loop of [strings.EqualFold] agrees with
    comparing the lower-case forms, for the two bytes with these codes. *)
Definition fold_step_ok (n1 n2 : N) : bool :=
  let sr := ascii_of_N n1 in
  let tr := ascii_of_N n2 in
  negb (bytes.RuneSelf <=? N.lor (bytes.code sr) (bytes.code tr))%N
  && Bool.eqb
       (if (bytes.code tr =? bytes.code sr)%N then true
        else
          let '(lo, hi) :=
            if (bytes.code tr <? bytes.code sr)%N then (tr, sr) else (sr, tr) in
          bytes.isUpper lo && (bytes.code hi =? bytes.code lo + 32)%N)
       (Ascii.eqb (bytes.lower sr) (bytes.lower tr)).

(** The comparison the plugin applies to a value and an allowed value. *)
Definition enum_match `{GoStdlib} (caseSensitive : bool) (value allowed : string) : Prop :=
  if caseSensitive then value = allowed
  else strings.EqualFold value allowed = true.

(** ** The IP-address policy in the words of the specification *)

Definition is_IPv4 (ip : net.IP) : Prop := net.To4 ip <> None.

Definition is_IPv6 (ip : net.IP) : Prop := net.To16 ip <> None /\ net.To4 ip = None.

(** An entry of the allowed-families list names the family of [ip]; the
    names are compared in lower case. *)
Definition version_allows `{GoStdlib} (version : string) (ip : net.IP) : Prop :=
  (strings.ToLower version = "ipv4" /\ is_IPv4 ip) \/
  (strings.ToLower version = "ipv6" /\ is_IPv6 ip).

Definition family_allowed `{GoStdlib} (versions : list string) (ip : net.IP) : Prop :=
  exists version, version ∈ versions /\ version_allows version ip.

(** [ip] lies in one of the five reserved blocks. *)
Definition in_private_block (ip : net.IP) : Prop :=
  exists block, block ∈ IPAddressValidationPlugin.privateIPBlocks /\
                net.Contains block ip = true.

(** The three grounds for rejection, for the text that is given to the
    parser. *)
Definition IP_rejection_grounds `{GoStdlib} (p : IPAddressValidationPlugin.t)
    (text : string) : Prop :=
  net.ParseIP text = None \/
  exists ip, net.ParseIP text = Some ip /\
    ((IPAddressValidationPlugin.AllowedIPVersions p <> [] /\
      ~ family_allowed (IPAddressValidationPlugin.AllowedIPVersions p) ip) \/
     (IPAddressValidationPlugin.MustBePrivate p = true /\ ~ in_private_block ip)).

(** The private IPv4 ranges, on the first two octets. *)
Definition private_v4 (a b : Z) : bool :=
  ((a =? 10) || ((a =? 172) && (16 <=? b) && (b <=? 31))
   || ((a =? 192) && (b =? 168)))%Z.

Definition all_bytes : list Z := List.map Z.of_nat (seq 0 256).

(** An IP plugin that only parses: no family list, no private check. *)
Definition parse_only_IP_plugin : IPAddressValidationPlugin.t :=
  {| IPAddressValidationPlugin.Key := "TRUSTED_PROXY_IP";
     IPAddressValidationPlugin.AllowedIPVersions := [];
     IPAddressValidationPlugin.MustBePrivate := false |}.

(** [10.0.0.1] after a space. *)
Definition padded_address : string := " 10.0.0.1".

(** ** The URL policy in the words of the specification *)

(** The value parses as an absolute URL: [url.Parse] succeeds, with a
    scheme and a host. *)
Definition parses_as_absolute_URL `{GoStdlib} (value : string) : Prop :=
  exists u, url_Parse value = Some u /\ Scheme u <> "" /\ Host u <> "".

(** The scheme of the parsed URL matches none of the allowed schemes. *)
Definition scheme_not_allowed `{GoStdlib} (p : URLValidationPlugin.t)
    (value : string) : Prop :=
  URLValidationPlugin.AllowedSchemes p <> [] /\
  exists u, url_Parse value = Some u /\
    forall s, s ∈ URLValidationPlugin.AllowedSchemes p ->
              strings.EqualFold (Scheme u) s = false.

Definition URL_rejection_grounds `{GoStdlib} (p : URLValidationPlugin.t)
    (value : string) : Prop :=
  ~ parses_as_absolute_URL value \/ scheme_not_allowed p value.

(** The URL plugin with the allowed schemes of the built-in one. *)
Definition https_only (key : string) : URLValidationPlugin.t :=
  {| URLValidationPlugin.Key := key; URLValidationPlugin.AllowedSchemes := ["https"] |}.



(** A plugin that returns the same error for every key and value. *)
Definition deny_all : plugin :=
  CustomPlugin.make (fun _ _ => (true, Some (errorString "not allowed"))) "DenyAll".


(** ** Further inputs and notions for the properties of the engine *)

(** A file loader that fails with the given error. *)
Definition world_without_file (err : error) : World :=
  {| godotenv_Read := fun _ => inr err;
     range_envVars := map_to_list;
     range_requiredKeys := map_to_list |}.

(** The configuration with other logging settings. *)
Definition with_logging (verbose : bool) (logger : option logrus.Logger)
    (c : Config) : Config :=
  {| RequireQuotes := RequireQuotes c; Verbose := verbose;
     Logger := logger; Plugins := Plugins c |}.

(** The keys of the four built-in plugins, in registry order. *)
Definition builtin_keys : list string :=
  ["API_URL"; "ENVIRONMENT"; "ENABLE_DEBUG"; "TRUSTED_PROXY_IP"].

(** The logger of [v'] has the level of the logger of [v] and has kept,
    in order, what that one had written. *)
Definition log_extends (v v' : Validator) : Prop :=
  forall lg, Logger (config v) = Some lg ->
    exists lg', Logger (config v') = Some lg' /\
                logrus.level lg' = logrus.level lg /\
                logrus.written lg `prefix_of` logrus.written lg'.

(** The first line of every run, and the last line of a run that finds
    nothing wrong. *)
Definition start_line (filePath : string) : logrus.Level * string :=
  (logrus.InfoLevel, "Starting validation for file: " ++ filePath).

Definition valid_line : logrus.Level * string :=
  (logrus.InfoLevel, ".env file is valid.").

(** The validator after its logger has been called with a message. *)
Definition logged (l : logrus.Level) (msg : string) (v : Validator) : Validator :=
  set_Logger ((fun lg => logrus.Log lg l msg) <$> Logger (config v)) v.

(** The line of line 134 for a rejection when [Verbose] is off. *)
Definition quiet_violation_line (key : string) (e : error) : logrus.Level * string :=
  (logrus.ErrorLevel, "Validation error for key " ++ key ++ ": " ++ Error e).

(** The logger a run works with: the one supplied, or the new one of
    lines 88-95. *)
Definition effective_Logger (v : Validator) : logrus.Logger :=
  match Logger (config v) with
  | Some lg => lg
  | None =>
      logrus.SetLevel logrus.New
        (if Verbose (config v) then logrus.DebugLevel else logrus.InfoLevel)
  end.

(** A statement after which the logger has kept its level and what it
    had written. *)
Definition keeps_log {A} (m : Stmt.M A) : Prop :=
  forall v, log_extends v (fst (m v)).

(** [::1] in bytes. *)
Definition loopback6 : net.IP := [0;0;0;0;0;0;0;0;0;0;0;0;0;0;0;1]%Z.

Definition is_byte (b : Z) : Prop := (0 <= b < 256)%Z.

(** ** White space and letter case on ASCII text *)

(** The bytes left after the leading ASCII white space. *)
Fixpoint skip_space (l : list ascii) : list ascii :=
  match l with
  | [] => []
  | c :: rest => if bytes.asciiSpace c then skip_space rest else l
  end.

(** The text without its leading and trailing ASCII white space. *)
Definition trimmed (s : string) : string :=
  string_of_list_ascii
    (rev (skip_space (rev (skip_space (list_ascii_of_string s))))).

(** The IP plugin as the registry configures it, for a given key. *)
Definition builtin_IP_plugin (key : string) : IPAddressValidationPlugin.t :=
  {| IPAddressValidationPlugin.Key := key;
     IPAddressValidationPlugin.AllowedIPVersions := ["IPv4"; "IPv6"];
     IPAddressValidationPlugin.MustBePrivate := true |}.

(** ** Further inputs of examples *)

Definition no_such_file : error := errorString "open .env: no such file or directory".

(** [API_URL=ftp://x] *)
Definition ftp_url_only : gmap string string := {[ "API_URL" := "ftp://x" ]}.

(** An IP plugin whose family list holds a misspelt name. *)
Definition misspelt_version_plugin : IPAddressValidationPlugin.t :=
  {| IPAddressValidationPlugin.Key := "TRUSTED_PROXY_IP";
     IPAddressValidationPlugin.AllowedIPVersions := ["IP4"];
     IPAddressValidationPlugin.MustBePrivate := false |}.

(** The Enum plugin of the registry, made case-insensitive. *)
Definition insensitive_environment_plugin : EnumValidationPlugin.t :=
  {| EnumValidationPlugin.Key := "ENVIRONMENT";
     EnumValidationPlugin.AllowedValues := environments;
     EnumValidationPlugin.CaseSensitive := false |}.

(** The Boolean plugin of the registry. *)
Definition debug_flag_plugin : BooleanValidationPlugin.t :=
  {| BooleanValidationPlugin.Key := "ENABLE_DEBUG";
     BooleanValidationPlugin.AcceptedValues := boolean_literals;
     BooleanValidationPlugin.Standardize := true |}.

(** * Properties *)

Local Open Scope list_scope.

Section engine.
Context `{GoStdlib}.

Lemma logs_only_log l msg : logs_only (Stmt.log l msg).
Proof. intros v. eexists. split; [reflexivity | by split]. Qed.

Lemma logs_only_ret : logs_only (Stmt.ret tt).
Proof. intros v. exists v. by repeat split. Qed.

Lemma logs_only_when b m : logs_only m -> logs_only (Stmt.when b m).
Proof. destruct b; simpl; [done | intros _; apply logs_only_ret]. Qed.

Lemma logs_only_bind m k :
  logs_only m -> logs_only k -> logs_only (Stmt.bind m (fun _ => k)).
Proof.
  intros Hm Hk v. destruct (Hm v) as (v1 & E1 & F1 & R1).
  destruct (Hk v1) as (v2 & E2 & F2 & R2).
  exists v2. unfold Stmt.bind. rewrite E1. split; [done |].
  split; congruence.
Qed.

Lemma logs_only_init_Logger : logs_only init_Logger.
Proof.
  intros v. unfold init_Logger, Stmt.bind, Stmt.get.
  destruct (Logger (config v)); eexists; (split; [reflexivity | by split]).
Qed.

Lemma logs_only_log_configuration : logs_only log_configuration.
Proof.
  intros v. unfold log_configuration, Stmt.bind at 1, Stmt.get.
  apply logs_only_when.
  repeat (apply logs_only_bind; [apply logs_only_log |]). apply logs_only_log.
Qed.

(** One plugin: the statement goes on exactly when the plugin returns no
    error, and otherwise returns the plugin's error as it is. *)
Lemma apply_plugin_spec key value p v :
  exists v', frame v' = frame v /\ requiredKeys v' = requiredKeys v /\
    apply_plugin key value p v =
      (v', match snd (plugin_Validate p key value) with
           | Some e => inr (Some e)
           | None => inl tt
           end).
Proof.
  unfold apply_plugin, Stmt.bind at 1, Stmt.get.
  destruct (plugin_Validate p key value) as [handled [e|]]; simpl.
  - destruct (Verbose (config v)); unfold Stmt.bind, Stmt.Errorf, Stmt.log,
      Stmt.modify, Stmt.Return; eexists; (split; [| split; [| reflexivity]]); done.
  - destruct (logs_only_when (handled && Verbose (config v))
                (Stmt.Infof ("  [Validated by: " +:+ plugin_Name p +:+ "]"))
                (logs_only_log _ _) v) as (v' & E & F & R).
    exists v'. by rewrite E.
Qed.

Lemma for_plugins_spec key value ps v :
  exists v', frame v' = frame v /\ requiredKeys v' = requiredKeys v /\
    Stmt.for_range ps (apply_plugin key value) v =
      (v', match first_error ps key value with
           | Some e => inr (Some e)
           | None => inl tt
           end).
Proof.
  revert v. induction ps as [|p ps IH]; intros v; simpl.
  - exists v. by repeat split.
  - destruct (apply_plugin_spec key value p v) as (v1 & F1 & R1 & E1).
    unfold Stmt.bind. rewrite E1.
    destruct (snd (plugin_Validate p key value)) as [e|].
    + exists v1. by repeat split.
    + destruct (IH v1) as (v2 & F2 & R2 & E2).
      exists v2. rewrite E2. repeat split; congruence.
Qed.

Lemma mark_required_spec key v :
  exists v', frame v' = frame v /\
    requiredKeys v' = mark_seen key (requiredKeys v) /\
    mark_required key v = (v', inl tt).
Proof.
  unfold mark_required, mark_seen, Stmt.bind at 1, Stmt.get.
  destruct (requiredKeys v !! key) as [b|].
  - unfold Stmt.bind, Stmt.modify.
    match goal with |- context [Stmt.when ?b ?m ?v0] =>
      destruct (logs_only_when b m (logs_only_log _ _) v0) as (v' & E & F & R) end.
    exists v'. rewrite E. by repeat split.
  - match goal with |- context [Stmt.when ?b ?m ?v0] =>
      destruct (logs_only_when b m (logs_only_log _ _) v0) as (v' & E & F & R) end.
    exists v'. rewrite E. by repeat split.
Qed.

Lemma plugins_of_frame v v' : frame v' = frame v -> plugins v' = plugins v.
Proof. unfold frame. congruence. Qed.

Lemma process_entry_spec key value v :
  exists v', frame v' = frame v /\
    requiredKeys v' = mark_seen key (requiredKeys v) /\
    process_entry (key, value) v =
      (v', match first_error (plugins v) key value with
           | Some e => inr (Some e)
           | None => inl tt
           end).
Proof.
  unfold process_entry, Stmt.bind at 1, Stmt.get.
  match goal with |- context [Stmt.when ?b ?m] =>
    destruct (logs_only_when b m (logs_only_log _ _) v) as (v1 & E1 & F1 & R1) end.
  unfold Stmt.bind at 1. rewrite E1.
  destruct (mark_required_spec key v1) as (v2 & F2 & R2 & E2).
  unfold Stmt.bind at 1. rewrite E2.
  destruct (for_plugins_spec key value (plugins v) v2) as (v3 & F3 & R3 & E3).
  exists v3. rewrite E3. repeat split; congruence.
Qed.

Lemma for_entries_spec entries v :
  exists v', frame v' = frame v /\
    requiredKeys v' = fst (scan (plugins v) entries (requiredKeys v)) /\
    Stmt.for_range entries process_entry v =
      (v', match snd (scan (plugins v) entries (requiredKeys v)) with
           | Some e => inr (Some e)
           | None => inl tt
           end).
Proof.
  revert v. induction entries as [|[key value] rest IH]; intros v;
    cbn [Stmt.for_range scan].
  - exists v. by repeat split.
  - destruct (process_entry_spec key value v) as (v1 & F1 & R1 & E1).
    unfold Stmt.bind. rewrite E1.
    destruct (first_error (plugins v) key value) as [e|]; cbn [fst snd].
    + exists v1. by repeat split.
    + destruct (IH v1) as (v2 & F2 & R2 & E2).
      rewrite (plugins_of_frame _ _ F1), R1 in *.
      exists v2. rewrite E2. repeat split; congruence.
Qed.

End engine.

Section engine_run.
Context `{GoStdlib}.

Lemma check_missing_spec w v :
  exists v', frame v' = frame v /\ requiredKeys v' = requiredKeys v /\
    check_missing w v =
      (v', inr (let missing := missingKeys_of (range_requiredKeys w (requiredKeys v)) in
                if (0 <? length missing)%nat
                then Some (missing_error missing) else None)).
Proof.
  unfold check_missing, Stmt.bind at 1, Stmt.get. cbv zeta.
  destruct (0 <? length _)%nat;
    unfold Stmt.bind, Stmt.Error, Stmt.Infof, Stmt.log, Stmt.modify, Stmt.Return;
    eexists; (split; [| split; [| reflexivity]]); done.
Qed.

(** [ValidateDotEnv] computes [run_outcome] and leaves everything but the
    ledger and the logger as it was. *)
Lemma ValidateDotEnv_spec w v filePath :
  exists v', ValidateDotEnv w v filePath
               = (v', snd (run_outcome w (plugins v) (requiredKeys v) filePath)) /\
    frame v' = frame v /\
    requiredKeys v' = fst (run_outcome w (plugins v) (requiredKeys v) filePath).
Proof.
  unfold ValidateDotEnv, ValidateDotEnv_body, run_outcome.
  destruct (logs_only_init_Logger v) as (v1 & E1 & F1 & R1).
  unfold Stmt.bind at 1. rewrite E1.
  destruct (logs_only_log_configuration v1) as (v2 & E2 & F2 & R2).
  unfold Stmt.bind at 1. rewrite E2.
  destruct (logs_only_log logrus.InfoLevel
              ("Starting validation for file: " +:+ filePath) v2) as (v3 & E3 & F3 & R3).
  unfold Stmt.bind at 1, Stmt.Infof. rewrite E3.
  assert (F : frame v3 = frame v) by congruence.
  assert (R : requiredKeys v3 = requiredKeys v) by congruence.
  clear E1 E2 E3 F1 F2 F3 R1 R2 R3.
  destruct (loadEnvFile w filePath) as [envVars|err].
  - destruct (for_entries_spec (range_envVars w envVars) v3) as (v4 & F4 & R4 & E4).
    unfold Stmt.bind. rewrite E4.
    rewrite (plugins_of_frame _ _ F), R in R4 |- *.
    destruct (scan (plugins v) (range_envVars w envVars) (requiredKeys v))
      as [ledger' [e|]]; cbn [fst snd] in *.
    + exists v4. split; [done | split; congruence].
    + destruct (check_missing_spec w v4) as (v5 & F5 & R5 & E5).
      rewrite E5, R4. exists v5. split; [done | split; congruence].
  - unfold Stmt.Return. exists v3. by repeat split.
Qed.

Lemma ValidateDotEnv_verdict w v filePath :
  snd (ValidateDotEnv w v filePath)
    = snd (run_outcome w (plugins v) (requiredKeys v) filePath).
Proof. destruct (ValidateDotEnv_spec w v filePath) as (v' & -> & _). done. Qed.

Lemma ValidateDotEnv_ledger w v filePath :
  requiredKeys (fst (ValidateDotEnv w v filePath))
    = fst (run_outcome w (plugins v) (requiredKeys v) filePath).
Proof. destruct (ValidateDotEnv_spec w v filePath) as (v' & E & _ & R). by rewrite E. Qed.

Lemma ValidateDotEnv_frame w v filePath :
  frame (fst (ValidateDotEnv w v filePath)) = frame v.
Proof. destruct (ValidateDotEnv_spec w v filePath) as (v' & E & F & _). by rewrite E. Qed.

End engine_run.

(** ** The ledger *)

Section ledger.

Lemma lookup_mark_seen key (m : gmap string bool) k :
  mark_seen key m !! k = (fun b => b || bool_decide (k = key)) <$> m !! k.
Proof.
  unfold mark_seen. destruct (decide (k = key)) as [->|Hne].
  - destruct (m !! key) as [b|] eqn:E; simpl.
    + rewrite lookup_insert_eq, bool_decide_eq_true_2 by done.
      by rewrite orb_true_r.
    + by rewrite E.
  - rewrite bool_decide_eq_false_2 by done.
    destruct (m !! key) as [b|] eqn:E.
    + rewrite lookup_insert_ne by done.
      destruct (m !! k) as [c|]; simpl; [by rewrite orb_false_r | done].
    + destruct (m !! k) as [c|]; simpl; [by rewrite orb_false_r | done].
Qed.

Lemma lookup_mark_all keys (m : gmap string bool) k :
  mark_all keys m !! k = (fun b => b || bool_decide (k ∈ keys)) <$> m !! k.
Proof.
  unfold mark_all. revert m. induction keys as [|key keys IH]; intros m; cbn [foldl].
  - rewrite (bool_decide_eq_false_2 (k ∈ [])) by apply not_elem_of_nil.
    destruct (m !! k) as [b|]; simpl; [by rewrite orb_false_r | done].
  - rewrite IH, lookup_mark_seen.
    assert (bool_decide (k ∈ key :: keys)
            = bool_decide (k = key) || bool_decide (k ∈ keys)) as ->.
    { destruct (decide (k = key)) as [->|Hne].
      - rewrite (bool_decide_eq_true_2 (key = key)) by done.
        rewrite bool_decide_eq_true_2; [done | apply elem_of_cons; by left].
      - rewrite (bool_decide_eq_false_2 (k = key)) by done.
        apply bool_decide_ext. rewrite elem_of_cons. intuition congruence. }
    destruct (m !! k) as [b|]; simpl; [| done].
    by rewrite orb_assoc.
Qed.

Lemma mark_all_app l1 l2 (m : gmap string bool) :
  mark_all (l1 ++ l2) m = mark_all l2 (mark_all l1 m).
Proof. unfold mark_all. apply foldl_app. Qed.

(** The ledger [NewValidator] builds: every required name, flag [false]. *)
Lemma lookup_new_ledger (required : list string) (m : gmap string bool) k :
  foldl (fun m key => <[key := false]> m) m required !! k
    = if bool_decide (k ∈ required) then Some false else m !! k.
Proof.
  revert m. induction required as [|key rest IH]; intros m; cbn [foldl].
  - rewrite bool_decide_eq_false_2; [done | apply not_elem_of_nil].
  - rewrite IH. destruct (decide (k ∈ rest)) as [Hin|Hnin].
    + rewrite !bool_decide_eq_true_2; [done | apply elem_of_cons; by right | done].
    + rewrite (bool_decide_eq_false_2 (k ∈ rest)) by done.
      destruct (decide (k = key)) as [->|Hne].
      * rewrite lookup_insert_eq, bool_decide_eq_true_2;
          [done | apply elem_of_cons; by left].
      * rewrite lookup_insert_ne by done.
        rewrite bool_decide_eq_false_2; [done |].
        rewrite elem_of_cons. intuition congruence.
Qed.

Lemma missingKeys_of_acc (visited : list (string * bool)) acc :
  foldl (fun missingKeys kf =>
           if negb (snd kf) then (missingKeys ++ [fst kf])%list else missingKeys)
        acc visited
  = (acc ++ (filter (fun kf => snd kf = false) visited).*1)%list.
Proof.
  revert acc. induction visited as [|[k b] rest IH]; intros acc; cbn [foldl].
  - by rewrite filter_nil, app_nil_r.
  - rewrite IH. destruct b; cbn [negb snd fst].
    + rewrite filter_cons_False by done. done.
    + rewrite filter_cons_True by done. rewrite fmap_cons. cbn [fst].
      by rewrite <- app_assoc.
Qed.

Lemma missingKeys_of_filter visited :
  missingKeys_of visited = (filter (fun kf => snd kf = false) visited).*1.
Proof. unfold missingKeys_of. by rewrite missingKeys_of_acc. Qed.

(** What the last loop collects when it ranges over a ledger: each name
    with flag [false], once. *)
Lemma missingKeys_of_range (ledger : gmap string bool) visited :
  visited ≡ₚ map_to_list ledger ->
  NoDup (missingKeys_of visited) /\
  forall k, k ∈ missingKeys_of visited <-> ledger !! k = Some false.
Proof.
  intros Hperm. rewrite missingKeys_of_filter. split.
  - apply (sublist_NoDup _ (visited.*1)).
    + rewrite Hperm. apply NoDup_fst_map_to_list.
    + apply fmap_sublist, sublist_filter.
  - intros k. rewrite list_elem_of_fmap. split.
    + intros ([k' b] & -> & Hin). apply list_elem_of_filter in Hin as [Hb Hin].
      simpl in *. subst b. rewrite Hperm in Hin.
      by apply elem_of_map_to_list in Hin.
    + intros Hk. exists (k, false). split; [done |].
      apply list_elem_of_filter. split; [done |].
      rewrite Hperm. by apply elem_of_map_to_list.
Qed.

End ledger.

(** ** The loops over plugins and entries *)

Section scanning.

Lemma first_error_None ps key value :
  first_error ps key value = None <->
  forall p, p ∈ ps -> snd (plugin_Validate p key value) = None.
Proof.
  induction ps as [|q ps IH]; simpl.
  - split; [intros _ p Hp; by apply elem_of_nil in Hp | done].
  - destruct (snd (plugin_Validate q key value)) as [e|] eqn:E.
    + split; [done |]. intros Hall.
      specialize (Hall q (list_elem_of_here _ _)). congruence.
    + rewrite IH. split.
      * intros Hall p Hp. apply elem_of_cons in Hp as [->|Hp]; auto.
      * intros Hall p Hp. apply Hall. by apply list_elem_of_further.
Qed.

Lemma first_error_Some ps key value e :
  first_error ps key value = Some e ->
  exists p, p ∈ ps /\ snd (plugin_Validate p key value) = Some e.
Proof.
  induction ps as [|q ps IH]; simpl; [done |].
  destruct (snd (plugin_Validate q key value)) as [e'|] eqn:E.
  - intros [= ->]. exists q. split; [apply list_elem_of_here | done].
  - intros Hps. destruct (IH Hps) as (p & Hp & Hv).
    exists p. split; [by apply list_elem_of_further | done].
Qed.


Lemma scan_passes ps entries ledger :
  passes ps entries ->
  scan ps entries ledger = (mark_all entries.*1 ledger, None).
Proof.
  revert ledger. induction entries as [|[k val] rest IH]; intros ledger Hpass; simpl.
  - done.
  - assert (first_error ps k val = None) as ->.
    { apply first_error_None. intros p Hp.
      apply (Hpass k val p); [apply list_elem_of_here | done]. }
    apply IH. intros k' val' p Hin Hp.
    apply (Hpass k' val' p); [by apply list_elem_of_further | done].
Qed.

Lemma scan_app ps pre rest ledger :
  passes ps pre ->
  scan ps (pre ++ rest) ledger = scan ps rest (mark_all pre.*1 ledger).
Proof.
  revert ledger. induction pre as [|[k val] pre IH]; intros ledger Hpass; simpl.
  - done.
  - assert (first_error ps k val = None) as ->.
    { apply first_error_None. intros p Hp.
      apply (Hpass k val p); [apply list_elem_of_here | done]. }
    apply IH. intros k' val' p Hin Hp.
    apply (Hpass k' val' p); [by apply list_elem_of_further | done].
Qed.

(** An error that the loop over the entries returns is the error some
    plugin gave for some entry. *)
Lemma scan_error ps entries ledger e :
  snd (scan ps entries ledger) = Some e ->
  exists k val p, (k, val) ∈ entries /\ p ∈ ps /\
                  snd (plugin_Validate p k val) = Some e.
Proof.
  revert ledger. induction entries as [|[k val] rest IH]; intros ledger; simpl.
  - done.
  - destruct (first_error ps k val) as [e'|] eqn:E; simpl.
    + intros [= ->]. destruct (first_error_Some _ _ _ _ E) as (p & Hp & Hv).
      exists k, val, p. split; [apply list_elem_of_here | done].
    + intros Hs. destruct (IH _ Hs) as (k' & val' & p & Hin & Hp & Hv).
      exists k', val', p. split; [by apply list_elem_of_further | done].
Qed.

End scanning.

(** ** Content violations: the run stops at the first one *)

Section fail_fast.
Context `{GoStdlib}.



Lemma scan_rejected ps pre key value post ledger e :
  passes ps pre ->
  first_error ps key value = Some e ->
  scan ps (pre ++ (key, value) :: post) ledger
    = (mark_all (pre.*1 ++ [key]) ledger, Some e).
Proof.
  intros Hpre He. rewrite scan_app by done. cbn [scan]. rewrite He.
  by rewrite mark_all_app.
Qed.


Lemma Verbose_of_frame v v' : frame v' = frame v -> Verbose (config v') = Verbose (config v).
Proof. unfold frame. congruence. Qed.





End fail_fast.



(** ** Runs without a content violation: the missing-key report *)

Section missing_keys.
Context `{GoStdlib}.

Lemma passes_perm ps l1 l2 : l1 ≡ₚ l2 -> passes ps l1 -> passes ps l2.
Proof.
  intros Hperm Hpass k val p Hin Hp. apply (Hpass k val p); [| done].
  by rewrite Hperm.
Qed.

Lemma elem_of_range_keys (envVars : gmap string string) entries k :
  entries ≡ₚ map_to_list envVars ->
  k ∈ entries.*1 <-> is_Some (envVars !! k).
Proof.
  intros Hperm. rewrite list_elem_of_fmap. split.
  - intros ([k' val] & -> & Hin). rewrite Hperm in Hin.
    apply elem_of_map_to_list in Hin. by exists val.
  - intros [val Hval]. exists (k, val). split; [done |].
    rewrite Hperm. by apply elem_of_map_to_list.
Qed.

(** The outcome of a run in which no plugin returns an error: every key
    of the mapping is marked, and the report lists, once each, the names
    whose flag was [false] before the run and that the mapping lacks. *)
Lemma run_without_rejection w v filePath envVars :
  World_ok w ->
  godotenv_Read w filePath = inl envVars ->
  passes (plugins v) (map_to_list envVars) ->
  exists missing,
    NoDup missing /\
    (forall k, k ∈ missing <->
               requiredKeys v !! k = Some false /\ envVars !! k = None) /\
    snd (ValidateDotEnv w v filePath)
      = (if (0 <? length missing)%nat then Some (missing_error missing) else None) /\
    forall k, requiredKeys (fst (ValidateDotEnv w v filePath)) !! k
              = (fun b => b || bool_decide (is_Some (envVars !! k)))
                  <$> requiredKeys v !! k.
Proof.
  intros [Henv Hreq] Hread Hpass.
  rewrite ValidateDotEnv_verdict, ValidateDotEnv_ledger.
  unfold run_outcome, loadEnvFile. rewrite Hread.
  rewrite scan_passes by (eapply passes_perm; [symmetry; apply Henv | done]).
  set (ledger' := mark_all (range_envVars w envVars).*1 (requiredKeys v)).
  assert (forall k, ledger' !! k
            = (fun b => b || bool_decide (is_Some (envVars !! k)))
                <$> requiredKeys v !! k) as Hlookup.
  { intros k. unfold ledger'. rewrite lookup_mark_all.
    rewrite (bool_decide_ext _ _ (elem_of_range_keys envVars _ k (Henv envVars))).
    done. }
  destruct (missingKeys_of_range ledger' (range_requiredKeys w ledger') (Hreq _))
    as [Hnodup Hmiss].
  exists (missingKeys_of (range_requiredKeys w ledger')).
  split; [done |]. split; [| split; [done | exact Hlookup]].
  intros k. rewrite Hmiss, Hlookup.
  destruct (requiredKeys v !! k) as [b|]; cbn [fmap option_fmap option_map].
  - destruct (envVars !! k) as [val|].
    + rewrite bool_decide_eq_true_2 by eauto. rewrite orb_true_r.
      split; [intros [=] | intros [_ [=]]].
    + rewrite bool_decide_eq_false_2 by (intros [? [=]]). rewrite orb_false_r.
      split; [by intros [= ->] | by intros [[= ->] _]].
  - split; [intros [=] | intros [[=] _]].
Qed.

End missing_keys.

Section plain_formats.
Context `{GoStdlib}.

Lemma Sprintf0_plain s : plain s = true -> fmt.Sprintf0 s = s.
Proof.
  unfold plain. induction s as [|c s IH]; cbn [strings.any fmt.Sprintf0]; [done |].
  destruct (bytes.code c =? 37)%N; cbn [orb negb]; [done |].
  intros Hs. by rewrite IH.
Qed.

Lemma plain_app s t : plain (s +:+ t) = plain s && plain t.
Proof.
  unfold plain. induction s as [|c s IH]; simpl; [done |].
  destruct (bytes.code c =? 37)%N; simpl; [done | exact IH].
Qed.

Lemma plain_Join l : Forall (fun k => plain k = true) l -> plain (strings.Join l " ") = true.
Proof.
  induction 1 as [|k l Hk Hl IH]; [done |].
  cbn [strings.Join]. destruct l as [|k' l']; [done |].
  rewrite !plain_app, Hk, IH. done.
Qed.

Lemma missing_error_plain missing :
  Forall (fun k => plain k = true) missing ->
  missing_error missing
    = errorString ("missing required keys: [" +:+ strings.Join missing " " +:+ "]").
Proof.
  intros Hplain. unfold missing_error, fmt.Errorf0, fmt.v_strings. f_equal.
  rewrite Sprintf0_plain.
  - reflexivity.
  - rewrite !plain_app, plain_Join by done. reflexivity.
Qed.

End plain_formats.

Section fresh_validator.
Context `{GoStdlib}.

(** C2.  A run of a newly built validator in which no plugin returns an
    error for any entry of the mapping: the names that are required and
    absent from the mapping form a duplicate-free list [missing] (in the
    order of the final [range]); the run returns [nil] when that list is
    empty and otherwise the error made from the whole list, whose message
    is [missing required keys: [K1 K2 ...]] when no required name
    contains a [%]. *)
Theorem missing_required_keys_are_all_reported
    w config (required : list string) filePath envVars :
  World_ok w ->
  godotenv_Read w filePath = inl envVars ->
  passes (plugins (NewValidator config required)) (map_to_list envVars) ->
  exists missing,
    NoDup missing /\
    (forall k, k ∈ missing <-> k ∈ required /\ envVars !! k = None) /\
    snd (ValidateDotEnv w (NewValidator config required) filePath)
      = match missing with
        | [] => None
        | _ => Some (fmt.Errorf0 ("missing required keys: " +:+ fmt.v_strings missing))
        end /\
    (Forall (fun k => plain k = true) required ->
     missing <> [] ->
     snd (ValidateDotEnv w (NewValidator config required) filePath)
       = Some (errorString
                 ("missing required keys: [" +:+ strings.Join missing " " +:+ "]"))).
Proof.
  intros Hw Hread Hpass.
  destruct (run_without_rejection w _ filePath envVars Hw Hread Hpass)
    as (missing & Hnodup & Hmiss & Hverdict & _).
  assert (forall k, k ∈ missing <-> k ∈ required /\ envVars !! k = None) as Hmiss'.
  { intros k. rewrite Hmiss. cbn [NewValidator requiredKeys].
    rewrite lookup_new_ledger, lookup_empty.
    destruct (decide (k ∈ required)) as [Hin|Hnin].
    - rewrite bool_decide_eq_true_2 by done. intuition.
    - rewrite bool_decide_eq_false_2 by done. intuition congruence. }
  exists missing. split; [done |]. split; [done |].
  rewrite Hverdict. split.
  - by destruct missing.
  - intros Hplain Hne. destruct missing as [|k0 rest]; [done |].
    cbn [length Nat.ltb Nat.leb]. f_equal. apply missing_error_plain.
    apply Forall_forall. intros k Hk. apply Hmiss' in Hk as [Hk _].
    by apply (proj1 (Forall_forall _ _) Hplain).
Qed.

(** C3 on the code.  The ledger is built once, in [NewValidator], and a
    run only ever sets flags: after a run on [DB_HOST=localhost], a second
    run of the same validator on an empty mapping returns [nil], whereas
    a new validator returns the missing-key error for that mapping. *)
Theorem ledger_is_carried_over_to_the_next_run :
  let v0 := NewValidator (example_config []) ["DB_HOST"] in
  let first := ValidateDotEnv (world_of db_host_only) v0 ".env" in
  let second := ValidateDotEnv (world_of ∅) (fst first) ".env" in
  requiredKeys v0 !! "DB_HOST" = Some false /\
  snd first = None /\
  requiredKeys (fst first) !! "DB_HOST" = Some true /\
  snd second = None /\
  snd (ValidateDotEnv (world_of ∅) v0 ".env")
    = Some (errorString "missing required keys: [DB_HOST]").
Proof. vm_compute. repeat split; reflexivity. Qed.

(** C4.  The error returned and the ledger left by [ValidateDotEnv] do not
    depend on [RequireQuotes], whether the flag is changed in the
    configuration given to [NewValidator] or in the validator itself. *)
Theorem verdict_independent_of_RequireQuotes
    w config (required : list string) v filePath b :
  (snd (ValidateDotEnv w (NewValidator (with_RequireQuotes b config) required) filePath)
     = snd (ValidateDotEnv w (NewValidator config required) filePath) /\
   requiredKeys (fst (ValidateDotEnv w
       (NewValidator (with_RequireQuotes b config) required) filePath))
     = requiredKeys (fst (ValidateDotEnv w (NewValidator config required) filePath))) /\
  (snd (ValidateDotEnv w (set_RequireQuotes b v) filePath)
     = snd (ValidateDotEnv w v filePath) /\
   requiredKeys (fst (ValidateDotEnv w (set_RequireQuotes b v) filePath))
     = requiredKeys (fst (ValidateDotEnv w v filePath))).
Proof.
  rewrite !ValidateDotEnv_verdict, !ValidateDotEnv_ledger. repeat split.
Qed.

End fresh_validator.

Lemma missing_required_keys_are_all_reported_witness :
  let G := example_stdlib in
  let required := ["API_URL"; "DB_HOST"; "ENVIRONMENT"] in
  (World_ok (world_of db_host_only) /\
   godotenv_Read (world_of db_host_only) ".env" = inl db_host_only /\
   passes (plugins (NewValidator (example_config []) required))
          (map_to_list db_host_only)) /\
  exists missing,
    NoDup missing /\
    (forall k, k ∈ missing <-> k ∈ required /\ db_host_only !! k = None) /\
    snd (ValidateDotEnv (world_of db_host_only)
           (NewValidator (example_config []) required) ".env")
      = match missing with
        | [] => None
        | _ => Some (fmt.Errorf0 ("missing required keys: " +:+ fmt.v_strings missing))
        end /\
    (Forall (fun k => plain k = true) required ->
     missing <> [] ->
     snd (ValidateDotEnv (world_of db_host_only)
            (NewValidator (example_config []) required) ".env")
       = Some (errorString
                 ("missing required keys: [" +:+ strings.Join missing " " +:+ "]"))).
Proof.
  intros G required.
  assert (World_ok (world_of db_host_only)) as H1
    by (split; intros m; reflexivity).
  assert (godotenv_Read (world_of db_host_only) ".env" = inl db_host_only) as H2
    by reflexivity.
  assert (passes (plugins (NewValidator (example_config []) required))
                 (map_to_list db_host_only)) as H3.
  { assert (map_to_list db_host_only = [("DB_HOST", "localhost")]) as ->
      by (vm_compute; reflexivity).
    intros k val p Hin Hp. in_list Hin.
    cbn [plugins NewValidator example_config Plugins app] in Hp.
    rewrite app_nil_r in Hp. unfold loadBuiltInPlugins in Hp.
    in_list Hp; reflexivity. }
  split; [exact (conj H1 (conj H2 H3)) |].
  exact (missing_required_keys_are_all_reported (world_of db_host_only)
           (example_config []) required ".env" db_host_only H1 H2 H3).
Defined.

(** ** Entries that no plugin claims *)

Section unclaimed.
Context `{GoStdlib}.

Lemma scan_None ps entries ledger ledger' :
  scan ps entries ledger = (ledger', None) ->
  ledger' = mark_all entries.*1 ledger.
Proof.
  revert ledger. induction entries as [|[k val] rest IH]; intros ledger; cbn [scan].
  - by intros [= <-].
  - destruct (first_error ps k val); [done | apply IH].
Qed.

(** C5.  Let the mapping hold [key] with [value], and let every plugin of
    the registry return [(false, nil)] for that entry.  Then an error
    returned by the run is either the error some plugin gave for another
    entry, or the missing-key error for a list that does not contain
    [key]; and when the other entries draw no error and every required
    name not yet seen is in the mapping, the run returns [nil] and [key],
    if required, is marked as seen. *)
Theorem unclaimed_entry_never_fails w v filePath envVars key value :
  World_ok w ->
  godotenv_Read w filePath = inl envVars ->
  envVars !! key = Some value ->
  (forall p, p ∈ plugins v -> plugin_Validate p key value = (false, None)) ->
  (forall e, snd (ValidateDotEnv w v filePath) = Some e ->
     (exists k' val' p, k' <> key /\ envVars !! k' = Some val' /\
                        p ∈ plugins v /\ snd (plugin_Validate p k' val') = Some e)
     \/ (exists missing, e = missing_error missing /\ (key ∉ missing) /\
                         forall k, k ∈ missing -> envVars !! k = None)) /\
  (passes (plugins v) (map_to_list (delete key envVars)) ->
   (forall k, requiredKeys v !! k = Some false -> is_Some (envVars !! k)) ->
   snd (ValidateDotEnv w v filePath) = None /\
   (is_Some (requiredKeys v !! key) ->
    requiredKeys (fst (ValidateDotEnv w v filePath)) !! key = Some true)).
Proof.
  intros Hw Hread Hkey Hun. split.
  - intros e. rewrite ValidateDotEnv_verdict. unfold run_outcome, loadEnvFile.
    rewrite Hread. destruct Hw as [Henv Hreq].
    destruct (scan (plugins v) (range_envVars w envVars) (requiredKeys v))
      as [ledger' [e'|]] eqn:Hscan; cbn [snd].
    + intros [= ->]. left.
      destruct (scan_error (plugins v) (range_envVars w envVars) (requiredKeys v) e)
        as (k' & val' & p & Hin & Hp & Hv); [by rewrite Hscan |].
      rewrite Henv in Hin. apply elem_of_map_to_list in Hin.
      exists k', val', p. split; [| done].
      intros ->. rewrite Hkey in Hin. injection Hin as <-.
      rewrite (Hun p Hp) in Hv. discriminate Hv.
    + apply scan_None in Hscan.
      destruct (missingKeys_of_range ledger' (range_requiredKeys w ledger') (Hreq _))
        as [_ Hmiss].
      destruct (0 <? length _)%nat; [| done]. intros [= <-]. right.
      exists (missingKeys_of (range_requiredKeys w ledger')).
      assert (forall k, k ∈ missingKeys_of (range_requiredKeys w ledger') ->
                        envVars !! k = None) as Habsent.
      { intros k Hk. apply Hmiss in Hk. rewrite Hscan, lookup_mark_all in Hk.
        destruct (requiredKeys v !! k) as [b|]; [| done].
        injection Hk as Hk. apply orb_false_elim in Hk as [_ Hk].
        apply bool_decide_eq_false_1 in Hk.
        rewrite (elem_of_range_keys envVars _ k (Henv envVars)) in Hk.
        by apply eq_None_not_Some. }
      split; [done |]. split; [| done].
      intros Hk. apply Habsent in Hk. congruence.
  - intros Hothers Hpresent.
    assert (passes (plugins v) (map_to_list envVars)) as Hpass.
    { intros k val p Hin Hp. apply elem_of_map_to_list in Hin.
      destruct (decide (k = key)) as [->|Hne].
      - rewrite Hkey in Hin. injection Hin as <-. by rewrite (Hun p Hp).
      - apply (Hothers k val p); [| done].
        apply elem_of_map_to_list. by rewrite lookup_delete_ne. }
    destruct (run_without_rejection w v filePath envVars Hw Hread Hpass)
      as (missing & _ & Hmiss & -> & Hledger).
    split.
    + destruct missing as [|k rest]; [done |]. exfalso.
      destruct (proj1 (Hmiss k) (list_elem_of_here _ _)) as [Hk1 Hk2].
      destruct (Hpresent k Hk1) as [val Hval]. congruence.
    + intros [b Hb]. rewrite Hledger, Hb. cbn [fmap option_fmap option_map].
      rewrite bool_decide_eq_true_2 by eauto. by rewrite orb_true_r.
Qed.

End unclaimed.

Lemma unclaimed_entry_never_fails_witness :
  let G := example_stdlib in
  let w := world_of custom_key_only in
  let v := NewValidator (example_config []) ["CUSTOM_KEY"] in
  (World_ok w /\ godotenv_Read w ".env" = inl custom_key_only /\
   custom_key_only !! "CUSTOM_KEY" = Some "anything" /\
   (forall p, p ∈ plugins v ->
              plugin_Validate p "CUSTOM_KEY" "anything" = (false, None)) /\
   passes (plugins v) (map_to_list (delete "CUSTOM_KEY" custom_key_only)) /\
   (forall k, requiredKeys v !! k = Some false -> is_Some (custom_key_only !! k))) /\
  snd (ValidateDotEnv w v ".env") = None /\
  requiredKeys (fst (ValidateDotEnv w v ".env")) !! "CUSTOM_KEY" = Some true.
Proof.
  intros G w v.
  assert (World_ok w) as H1 by (split; intros m; reflexivity).
  assert (godotenv_Read w ".env" = inl custom_key_only) as H2 by reflexivity.
  assert (custom_key_only !! "CUSTOM_KEY" = Some "anything") as H3
    by (vm_compute; reflexivity).
  assert (forall p, p ∈ plugins v ->
                    plugin_Validate p "CUSTOM_KEY" "anything" = (false, None)) as H4.
  { intros p Hp. cbn [v plugins NewValidator example_config Plugins] in Hp.
    rewrite app_nil_r in Hp. unfold loadBuiltInPlugins in Hp.
    in_list Hp; reflexivity. }
  assert (passes (plugins v) (map_to_list (delete "CUSTOM_KEY" custom_key_only))) as H5.
  { assert (map_to_list (delete "CUSTOM_KEY" custom_key_only) = []) as ->
      by (vm_compute; reflexivity).
    intros k val p Hin. apply elem_of_nil in Hin. destruct Hin. }
  assert (forall k, requiredKeys v !! k = Some false ->
                    is_Some (custom_key_only !! k)) as H6.
  { intros k. cbn [v requiredKeys NewValidator]. rewrite lookup_new_ledger.
    destruct (decide (k ∈ ["CUSTOM_KEY"])) as [Hin|Hnin].
    - intros _. in_list Hin. exists "anything". vm_compute; reflexivity.
    - rewrite bool_decide_eq_false_2 by exact Hnin. rewrite lookup_empty.
      intros Hk. discriminate Hk. }
  split; [exact (conj H1 (conj H2 (conj H3 (conj H4 (conj H5 H6))))) |].
  destruct (proj2 (unclaimed_entry_never_fails w v ".env" custom_key_only
                     "CUSTOM_KEY" "anything" H1 H2 H3 H4) H5 H6) as [Hv Hl].
  split; [exact Hv |]. apply Hl. exists false. vm_compute; reflexivity.
Defined.

(** ** The built-in plugins *)

Section boolean_plugin.
Context `{GoStdlib}.
Import BooleanValidationPlugin.

Lemma valid_loop_spec normalizedValue accepted :
  valid_loop normalizedValue accepted = true <->
  exists a, a ∈ accepted /\ normalizedValue = strings.ToLower a.
Proof.
  induction accepted as [|a rest IH]; cbn [valid_loop].
  - split; [done | intros (a & Ha & _); by apply elem_of_nil in Ha].
  - destruct (String.eqb_spec normalizedValue (strings.ToLower a)) as [Heq|Hne].
    + split; [| done]. intros _. exists a. split; [apply list_elem_of_here | done].
    + rewrite IH. split.
      * intros (b & Hb & Hv). exists b. split; [by apply list_elem_of_further | done].
      * intros (b & Hb & Hv). apply elem_of_cons in Hb as [->|Hb]; [done |].
        by exists b.
Qed.

(** C6.  The Boolean plugin abstains on every key but its own; on its
    own key it accepts exactly the values whose trimmed, lower-cased form
    is the lower-cased form of an accepted literal, and rejects all the
    others.  With the literals [true false 1 0 yes no], [true] is
    accepted and [maybe] is rejected. *)
Theorem Boolean_policy (p : t) :
  (forall key value, key <> Key p -> not_applicable (Validate p key value)) /\
  (forall value,
     accepts (Validate p (Key p) value) <->
     exists a, a ∈ AcceptedValues p /\
               strings.ToLower (strings.TrimSpace value) = strings.ToLower a) /\
  (forall value,
     rejects (Validate p (Key p) value) <->
     ~ exists a, a ∈ AcceptedValues p /\
                 strings.ToLower (strings.TrimSpace value) = strings.ToLower a) /\
  (forall K standardize,
     let p0 := {| Key := K; AcceptedValues := boolean_literals;
                  Standardize := standardize |} in
     accepts (Validate p0 K "true") /\ rejects (Validate p0 K "maybe")).
Proof.
  split; [| split; [| split]].
  - intros key value Hne. unfold not_applicable, Validate.
    destruct (String.eqb_spec key (Key p)); [done | reflexivity].
  - intros value. unfold accepts, Validate. rewrite String.eqb_refl. cbn [negb].
    rewrite <- valid_loop_spec.
    destruct (valid_loop _ _); cbn [negb]; [| done].
    by destruct (Standardize p).
  - intros value. unfold rejects, Validate. rewrite String.eqb_refl. cbn [negb].
    rewrite <- valid_loop_spec.
    destruct (valid_loop _ _); cbn [negb snd].
    + destruct (Standardize p); cbn [snd]; (split; [intros [? [=]] | done]).
    + split; [done | eauto].
  - intros K standardize p0. unfold accepts, rejects, Validate, p0.
    cbn [Key AcceptedValues Standardize]. rewrite String.eqb_refl. cbn [negb].
    split.
    + by destruct standardize.
    + vm_compute. eauto.
Qed.

(** C10.  [Validate] returns the same pair whatever [Standardize] is. *)
Theorem Standardize_has_no_effect (p : t) (b : bool) key value :
  Validate (with_Standardize b p) key value = Validate p key value.
Proof.
  unfold Validate, with_Standardize. cbn [Key AcceptedValues Standardize].
  destruct (negb (String.eqb key (Key p))); [reflexivity |].
  destruct (negb (valid_loop _ _)); [reflexivity |].
  by destruct b, (Standardize p).
Qed.

End boolean_plugin.

Section equal_fold.
Context `{GoStdlib}.

Lemma fold_steps_checked :
  forallb (fun n1 => forallb (fold_step_ok n1) ascii_codes) ascii_codes = true.
Proof. vm_compute. reflexivity. Qed.

Lemma code_in_ascii_codes c : bytes.isASCII c = true -> In (bytes.code c) ascii_codes.
Proof.
  unfold bytes.isASCII, bytes.RuneSelf, ascii_codes. intros Hc.
  apply N.ltb_lt in Hc. apply in_map_iff. exists (N.to_nat (bytes.code c)).
  split; [apply N2Nat.id |]. apply in_seq. lia.
Qed.

Lemma fold_step c1 c2 :
  bytes.isASCII c1 = true -> bytes.isASCII c2 = true ->
  fold_step_ok (bytes.code c1) (bytes.code c2) = true.
Proof.
  intros H1 H2. pose proof fold_steps_checked as Hall.
  rewrite forallb_forall in Hall.
  specialize (Hall _ (code_in_ascii_codes c1 H1)).
  rewrite forallb_forall in Hall.
  exact (Hall _ (code_in_ascii_codes c2 H2)).
Qed.

Lemma ascii_of_code c : ascii_of_N (bytes.code c) = c.
Proof. apply ascii_N_embedding. Qed.

(** On ASCII strings [strings.EqualFold] is equality of the lower-case
    forms. *)
Lemma EqualFold_ascii s t :
  strings.all bytes.isASCII s = true -> strings.all bytes.isASCII t = true ->
  strings.EqualFold s t = String.eqb (strings.map bytes.lower s) (strings.map bytes.lower t).
Proof.
  revert t. induction s as [|sr s IH]; intros [|tr t]; try reflexivity.
  cbn [strings.all strings.EqualFold strings.map String.eqb].
  intros Hs Ht. apply andb_prop in Hs as [Hsr Hs]. apply andb_prop in Ht as [Htr Ht].
  pose proof (fold_step sr tr Hsr Htr) as Hstep. unfold fold_step_ok in Hstep.
  rewrite !ascii_of_code in Hstep.
  apply andb_prop in Hstep as [Hlor Hcond].
  apply negb_true_iff in Hlor. rewrite Hlor.
  apply Bool.eqb_prop in Hcond. rewrite <- Hcond.
  destruct (bytes.code tr =? bytes.code sr)%N; [by apply IH |].
  destruct (bytes.code tr <? bytes.code sr)%N;
    (destruct (_ && _); [by apply IH | reflexivity]).
Qed.

End equal_fold.

Section enum_plugin.
Context `{GoStdlib}.
Import EnumValidationPlugin.

Lemma allowed_loop_spec caseSensitive value allowed :
  allowed_loop caseSensitive value allowed = true <->
  exists a, a ∈ allowed /\ enum_match caseSensitive value a.
Proof.
  induction allowed as [|a rest IH]; cbn [allowed_loop].
  - split; [done | intros (a & Ha & _); by apply elem_of_nil in Ha].
  - assert ((if caseSensitive then String.eqb value a
             else strings.EqualFold value a) = true
            <-> enum_match caseSensitive value a) as Hhead.
    { unfold enum_match. destruct caseSensitive; [apply String.eqb_eq | done]. }
    destruct caseSensitive.
    + destruct (String.eqb value a) eqn:E.
      * split; [| done]. intros _. exists a.
        split; [apply list_elem_of_here | by apply Hhead].
      * rewrite IH. split.
        -- intros (b & Hb & Hm). exists b. split; [by apply list_elem_of_further | done].
        -- intros (b & Hb & Hm). apply elem_of_cons in Hb as [->|Hb]; [| by exists b].
           apply Hhead in Hm. congruence.
    + destruct (strings.EqualFold value a) eqn:E.
      * split; [| done]. intros _. exists a.
        split; [apply list_elem_of_here | by apply Hhead].
      * rewrite IH. split.
        -- intros (b & Hb & Hm). exists b. split; [by apply list_elem_of_further | done].
        -- intros (b & Hb & Hm). apply elem_of_cons in Hb as [->|Hb]; [| by exists b].
           apply Hhead in Hm. congruence.
Qed.

(** C7.  The Enum plugin abstains on every key but its own; on its own
    key it accepts exactly the values that match an allowed value, by
    equality when [CaseSensitive] is set and by [strings.EqualFold]
    otherwise (on ASCII text: equality of the lower-case forms), and
    rejects all the others.  With the values [DEVELOPMENT STAGING
    PRODUCTION] and case sensitivity, [PRODUCTION] is accepted, and
    [production] and [INVALID_ENV] are rejected. *)
Theorem Enum_policy (p : t) :
  (forall key value, key <> Key p -> not_applicable (Validate p key value)) /\
  (forall value,
     accepts (Validate p (Key p) value) <->
     exists a, a ∈ AllowedValues p /\
               if CaseSensitive p then value = a
               else strings.EqualFold value a = true) /\
  (forall value,
     rejects (Validate p (Key p) value) <->
     ~ exists a, a ∈ AllowedValues p /\
                 if CaseSensitive p then value = a
                 else strings.EqualFold value a = true) /\
  (forall value a,
     strings.all bytes.isASCII value = true -> strings.all bytes.isASCII a = true ->
     (strings.EqualFold value a = true <->
      strings.map bytes.lower value = strings.map bytes.lower a)) /\
  (forall K,
     let p0 := {| Key := K; AllowedValues := environments; CaseSensitive := true |} in
     accepts (Validate p0 K "PRODUCTION") /\
     rejects (Validate p0 K "production") /\
     rejects (Validate p0 K "INVALID_ENV")).
Proof.
  split; [| split; [| split; [| split]]].
  - intros key value Hne. unfold not_applicable, Validate.
    destruct (String.eqb_spec key (Key p)); [done | reflexivity].
  - intros value. unfold accepts, Validate. rewrite String.eqb_refl. cbn [negb].
    rewrite <- (allowed_loop_spec (CaseSensitive p) value (AllowedValues p)).
    by destruct (allowed_loop _ _ _).
  - intros value. unfold rejects, Validate. rewrite String.eqb_refl. cbn [negb].
    rewrite <- (allowed_loop_spec (CaseSensitive p) value (AllowedValues p)).
    destruct (allowed_loop _ _ _); cbn [snd].
    + split; [intros [? [=]] | done].
    + split; [done | eauto].
  - intros value a Hv Ha. rewrite EqualFold_ascii by done. apply String.eqb_eq.
  - intros K p0. unfold accepts, rejects, Validate, p0.
    cbn [Key AllowedValues CaseSensitive]. rewrite String.eqb_refl. cbn [negb].
    repeat split; vm_compute; eauto.
Qed.

End enum_plugin.

Section ip_plugin.
Context `{GoStdlib}.
Import IPAddressValidationPlugin.

Lemma version_case_spec ip version :
  version_case ip version = true <-> version_allows version ip.
Proof.
  unfold version_case, version_allows, is_IPv4, is_IPv6.
  destruct (String.eqb_spec (strings.ToLower version) "ipv4") as [E4|N4].
  - rewrite bool_decide_eq_true, E4. split; [by left |].
    intros [[_ ?]|[? _]]; [done | discriminate].
  - destruct (String.eqb_spec (strings.ToLower version) "ipv6") as [E6|N6].
    + rewrite andb_true_iff, !bool_decide_eq_true. split; [by right |].
      intros [[? _]|[_ ?]]; [done | done].
    + split; [done | intros [[? _]|[? _]]; done].
Qed.

Lemma version_loop_spec ip versions :
  version_loop ip versions = true <-> family_allowed versions ip.
Proof.
  unfold family_allowed. induction versions as [|version rest IH]; cbn [version_loop].
  - split; [done | intros (v & Hv & _); by apply elem_of_nil in Hv].
  - destruct (version_case ip version) eqn:E.
    + split; [| done]. intros _. exists version.
      split; [apply list_elem_of_here | by apply version_case_spec].
    + rewrite IH. split.
      * intros (v & Hv & Ha). exists v. split; [by apply list_elem_of_further | done].
      * intros (v & Hv & Ha). apply elem_of_cons in Hv as [->|Hv]; [| by exists v].
        apply version_case_spec in Ha. congruence.
Qed.

Lemma isPrivateIP_spec ip : isPrivateIP ip = true <-> in_private_block ip.
Proof.
  unfold isPrivateIP, in_private_block. rewrite existsb_exists.
  split; intros (block & Hb & Hc); exists block;
    (split; [by apply list_elem_of_In | done]).
Qed.

Lemma nonempty_length {A} (l : list A) : (0 <? length l)%nat = true <-> l <> [].
Proof. destruct l; cbn; split; done. Qed.

(** The verdict of the IP plugin on its own key, by the grounds. *)
Lemma IP_Validate_own_key (p : t) value :
  (rejects (Validate p (Key p) value) /\
   IP_rejection_grounds p (strings.TrimSpace value)) \/
  (accepts (Validate p (Key p) value) /\
   ~ IP_rejection_grounds p (strings.TrimSpace value)).
Proof.
  unfold IP_rejection_grounds, rejects, accepts, Validate.
  rewrite String.eqb_refl. cbn [negb].
  destruct (net.ParseIP (strings.TrimSpace value)) as [ip|];
    [| left; split; [eauto | by left]].
  destruct (0 <? length (AllowedIPVersions p))%nat eqn:Elen.
  - apply nonempty_length in Elen.
    destruct (version_loop ip (AllowedIPVersions p)) eqn:Ever; cbn [negb andb].
    + apply version_loop_spec in Ever.
      destruct (MustBePrivate p) eqn:Epriv; cbn [andb].
      * destruct (isPrivateIP ip) eqn:Eip; cbn [negb snd].
        -- apply isPrivateIP_spec in Eip. right. split; [done |].
           intros [[=]|(ip' & [= <-] & [[_ ?]|[_ ?]])]; done.
        -- left. split; [eauto |]. right. exists ip.
           split; [done |]. right. split; [done |].
           rewrite <- isPrivateIP_spec. congruence.
      * right. split; [done |].
        intros [[=]|(ip' & [= <-] & [[_ ?]|[? _]])]; done.
    + left. cbn [snd]. split; [eauto |]. right. exists ip.
      split; [done |]. left. split; [done |].
      rewrite <- version_loop_spec. congruence.
  - assert (AllowedIPVersions p = []) as Hnil.
    { destruct (AllowedIPVersions p); [done | discriminate Elen]. }
    cbn [andb]. destruct (MustBePrivate p) eqn:Epriv; cbn [andb].
    + destruct (isPrivateIP ip) eqn:Eip; cbn [negb snd].
      * apply isPrivateIP_spec in Eip. right. split; [done |].
        intros [[=]|(ip' & [= <-] & [[? _]|[_ ?]])]; done.
      * left. split; [eauto |]. right. exists ip.
        split; [done |]. right. split; [done |].
        rewrite <- isPrivateIP_spec. congruence.
    + right. split; [done |].
      intros [[=]|(ip' & [= <-] & [[? _]|[? _]])]; done.
Qed.

Lemma accepts_not_rejects r : accepts r -> ~ rejects r.
Proof. intros -> [e He]. discriminate He. Qed.

(** C8 (amended).  The IP-address plugin abstains on every key but its
    own.  On its own key it rejects the value exactly when the value
    with its surrounding white space trimmed does not parse as an IP
    address, or a non-empty family list names no family of the address,
    or [MustBePrivate] is set and the address is in none of the five
    reserved blocks; it accepts in every other case.  With
    [MustBePrivate] set and no family list or the built-in one,
    [192.168.1.100] is accepted and [8.8.8.8] is rejected with the
    reason [must be a private IP address]. *)
Theorem IP_policy (p : t) :
  (forall key value, key <> Key p -> not_applicable (Validate p key value)) /\
  (forall value,
     rejects (Validate p (Key p) value) <->
     IP_rejection_grounds p (strings.TrimSpace value)) /\
  (forall value,
     accepts (Validate p (Key p) value) <->
     ~ IP_rejection_grounds p (strings.TrimSpace value)) /\
  (forall K versions,
     versions = [] \/ versions = ["IPv4"; "IPv6"] ->
     let p0 := {| Key := K; AllowedIPVersions := versions; MustBePrivate := true |} in
     accepts (Validate p0 K "192.168.1.100") /\
     Validate p0 K "8.8.8.8"
       = (true, Some (errorString
                        ("value for key " +:+ strconv.Quote K
                         +:+ " must be a private IP address")))).
Proof.
  split; [| split; [| split]].
  - intros key value Hne. unfold not_applicable, Validate.
    destruct (String.eqb_spec key (Key p)); [done | reflexivity].
  - intros value. destruct (IP_Validate_own_key p value) as [[Hr Hg]|[Ha Hg]].
    + tauto.
    + pose proof (accepts_not_rejects _ Ha). tauto.
  - intros value. destruct (IP_Validate_own_key p value) as [[Hr Hg]|[Ha Hg]].
    + split; [| tauto]. intros Ha. by apply accepts_not_rejects in Ha.
    + tauto.
  - intros K versions Hv p0. unfold accepts, Validate, p0.
    cbn [Key AllowedIPVersions MustBePrivate]. rewrite String.eqb_refl. cbn [negb].
    destruct Hv as [-> | ->]; split; vm_compute; reflexivity.
Qed.

End ip_plugin.

(** C8 as stated does not hold: the plugin parses the trimmed value.
    [" 10.0.0.1"] does not parse as an IP address, no other ground
    applies, and the plugin accepts it. *)
Lemma IP_policy_accepts_a_padded_address :
  ~ (rejects (@IPAddressValidationPlugin.Validate example_stdlib
                parse_only_IP_plugin "TRUSTED_PROXY_IP" padded_address)
     <-> @IP_rejection_grounds example_stdlib parse_only_IP_plugin padded_address).
Proof.
  intros [_ Hback].
  assert (@IP_rejection_grounds example_stdlib parse_only_IP_plugin padded_address)
    as Hg by (left; vm_compute; reflexivity).
  destruct (Hback Hg) as [e He]. vm_compute in He. discriminate He.
Qed.

(** ** The reserved blocks, in numbers *)

Section private_blocks.
Import IPAddressValidationPlugin.

Local Open Scope Z_scope.

(** What [net.ParseCIDR] makes of the five literals. *)
Lemma privateIPBlocks_parsed :
  privateIPBlocks =
    [ {| net.IPNet_IP := [10; 0; 0; 0]; net.Mask := [255; 0; 0; 0] |};
      {| net.IPNet_IP := [172; 16; 0; 0]; net.Mask := [255; 240; 0; 0] |};
      {| net.IPNet_IP := [192; 168; 0; 0]; net.Mask := [255; 255; 0; 0] |};
      {| net.IPNet_IP := [0;0;0;0;0;0;0;0;0;0;0;0;0;0;0;1];
         net.Mask := replicate 16 255 |};
      {| net.IPNet_IP := [252;0;0;0;0;0;0;0;0;0;0;0;0;0;0;0];
         net.Mask := 254 :: replicate 15 0 |} ].
Proof. vm_compute. reflexivity. Qed.

Lemma byte_cases (P : Z -> bool) :
  forallb P all_bytes = true -> forall b, 0 <= b < 256 -> P b = true.
Proof.
  intros Hall b Hb. rewrite forallb_forall in Hall. apply Hall.
  unfold all_bytes. apply in_map_iff. exists (Z.to_nat b).
  split; [lia |]. apply in_seq. lia.
Qed.

Lemma land_255 b : 0 <= b < 256 -> Z.land b 255 = b.
Proof.
  intros Hb. apply Z.eqb_eq.
  exact (byte_cases (fun b => Z.land b 255 =? b)
           ltac:(vm_compute; reflexivity) b Hb).
Qed.

Lemma land_240 b : 0 <= b < 256 -> (16 =? Z.land b 240) = (16 <=? b) && (b <=? 31).
Proof.
  intros Hb. apply Bool.eqb_prop.
  exact (byte_cases (fun b => Bool.eqb (16 =? Z.land b 240) ((16 <=? b) && (b <=? 31)))
           ltac:(vm_compute; reflexivity) b Hb).
Qed.

(** [Contains] for an IPv4 network and an IPv4 address in 16-byte form:
    the masked octets are compared one by one. *)
Lemma Contains_v4 n1 n2 n3 n4 m1 m2 m3 m4 a b c d :
  net.Contains {| net.IPNet_IP := [n1; n2; n3; n4]; net.Mask := [m1; m2; m3; m4] |}
               (net.v4InV6Prefix ++ [a; b; c; d])
  = (Z.land n1 m1 =? Z.land a m1) && ((Z.land n2 m2 =? Z.land b m2)
    && ((Z.land n3 m3 =? Z.land c m3) && ((Z.land n4 m4 =? Z.land d m4) && true))).
Proof. reflexivity. Qed.

(** For the IPv4 address [a.b.c.d], in the 16-byte form [ParseIP] gives,
    [isPrivateIP] holds exactly in 10.0.0.0/8, 172.16.0.0/12 and
    192.168.0.0/16. *)
Lemma isPrivateIP_v4 a b c d :
  0 <= a < 256 -> 0 <= b < 256 -> 0 <= c < 256 -> 0 <= d < 256 ->
  isPrivateIP (net.v4InV6Prefix ++ [a; b; c; d]) = private_v4 a b.
Proof.
  intros Ha Hb Hc Hd. unfold isPrivateIP. rewrite privateIPBlocks_parsed.
  cbn [existsb]. rewrite !Contains_v4.
  change (net.Contains _ (net.v4InV6Prefix ++ [a; b; c; d])) with false at 1.
  change (net.Contains _ (net.v4InV6Prefix ++ [a; b; c; d])) with false.
  rewrite !Z.land_0_r, !land_255 by done.
  change (Z.land 10 255) with 10. change (Z.land 172 255) with 172.
  change (Z.land 192 255) with 192. change (Z.land 168 255) with 168.
  change (Z.land 16 240) with 16. rewrite land_240 by done.
  change (0 =? 0) with true. unfold private_v4.
  rewrite !andb_true_r, !orb_false_r.
  rewrite (Z.eqb_sym 10 a), (Z.eqb_sym 172 a), (Z.eqb_sym 192 a), (Z.eqb_sym 168 b).
  by rewrite !andb_assoc, !orb_assoc.
Qed.

End private_blocks.

Section url_plugin.
Context `{GoStdlib}.
Import URLValidationPlugin.

Lemma scheme_loop_spec parsedScheme schemes :
  scheme_loop parsedScheme schemes = false <->
  forall s, s ∈ schemes -> strings.EqualFold parsedScheme s = false.
Proof.
  induction schemes as [|scheme rest IH]; cbn [scheme_loop].
  - split; [intros _ s Hs; by apply elem_of_nil in Hs | done].
  - destruct (strings.EqualFold parsedScheme scheme) eqn:E.
    + split; [done |]. intros Hall.
      specialize (Hall scheme (list_elem_of_here _ _)). congruence.
    + rewrite IH. split.
      * intros Hall s Hs. apply elem_of_cons in Hs as [->|Hs]; auto.
      * intros Hall s Hs. apply Hall. by apply list_elem_of_further.
Qed.

Lemma eqb_empty s : String.eqb s "" = false <-> s <> "".
Proof. destruct (String.eqb_spec s ""); split; congruence. Qed.

(** The verdict of the URL plugin on its own key, by the grounds. *)
Lemma URL_Validate_own_key (p : t) value :
  (rejects (Validate p (Key p) value) /\ URL_rejection_grounds p value) \/
  (accepts (Validate p (Key p) value) /\ ~ URL_rejection_grounds p value).
Proof.
  unfold URL_rejection_grounds, parses_as_absolute_URL, scheme_not_allowed,
    rejects, accepts, Validate.
  rewrite String.eqb_refl. cbn [negb].
  destruct (url_Parse value) as [u|].
  2: { left. split; [cbn; eauto |]. left. intros (u & [=] & _). }
  destruct (String.eqb (Scheme u) "") eqn:Es; cbn [orb].
  { left. split; [cbn; eauto |]. left. intros (u' & [= <-] & Hs & _).
    apply eqb_empty in Hs. congruence. }
  destruct (String.eqb (Host u) "") eqn:Eh.
  { left. split; [cbn; eauto |]. left. intros (u' & [= <-] & _ & Hh).
    apply eqb_empty in Hh. congruence. }
  apply eqb_empty in Es, Eh.
  assert (~ ~ exists u', Some u = Some u' /\ Scheme u' <> "" /\ Host u' <> "")
    as Hparsed by (intros Hn; apply Hn; by exists u).
  destruct (0 <? length (AllowedSchemes p))%nat eqn:Elen; cbn [andb].
  - apply nonempty_length in Elen.
    destruct (scheme_loop (Scheme u) (AllowedSchemes p)) eqn:Eloop; cbn [negb].
    + right. split; [done |]. intros [Hn | (_ & u' & [= <-] & Hall)]; [done |].
      apply scheme_loop_spec in Hall. congruence.
    + left. split; [cbn; eauto |]. right. split; [done |]. exists u.
      split; [done |]. by apply scheme_loop_spec.
  - right. split; [done |]. intros [Hn | (Hne & _)]; [done |].
    destruct (AllowedSchemes p); [done | discriminate Elen].
Qed.

(** C9.  The URL plugin abstains on every key but its own.  On its own
    key it rejects the value exactly when [url.Parse] fails on it or
    gives an empty scheme or an empty host, or a non-empty scheme list
    holds no scheme that [strings.EqualFold] matches with the URL's; it
    accepts in every other case.  Given what [url.Parse] returns for the
    three URLs, the plugin with the scheme list [https] accepts
    [https://api.example.com], rejects [http://api.example.com] with the
    reason [must be one of [https]], and rejects [ftp://x]. *)
Theorem URL_policy :
  url_Parse "https://api.example.com"
    = Some {| Scheme := "https"; Host := "api.example.com" |} ->
  url_Parse "http://api.example.com"
    = Some {| Scheme := "http"; Host := "api.example.com" |} ->
  url_Parse "ftp://x" = Some {| Scheme := "ftp"; Host := "x" |} ->
  (forall p : t,
     (forall key value, key <> Key p -> not_applicable (Validate p key value)) /\
     (forall value,
        rejects (Validate p (Key p) value) <-> URL_rejection_grounds p value) /\
     (forall value,
        accepts (Validate p (Key p) value) <-> ~ URL_rejection_grounds p value)) /\
  (forall K,
     accepts (Validate (https_only K) K "https://api.example.com") /\
     Validate (https_only K) K "http://api.example.com"
       = (true, Some (errorString
                        ("URL scheme for key " +:+ strconv.Quote K
                         +:+ " must be one of [https]"))) /\
     rejects (Validate (https_only K) K "ftp://x")).
Proof.
  intros Hhttps Hhttp Hftp. split.
  - intros p. split; [| split].
    + intros key value Hne. unfold not_applicable, Validate.
      destruct (String.eqb_spec key (Key p)); [done | reflexivity].
    + intros value. destruct (URL_Validate_own_key p value) as [[Hr Hg]|[Ha Hg]].
      * tauto.
      * pose proof (accepts_not_rejects _ Ha). tauto.
    + intros value. destruct (URL_Validate_own_key p value) as [[Hr Hg]|[Ha Hg]].
      * split; [| tauto]. intros Ha. by apply accepts_not_rejects in Ha.
      * tauto.
  - intros K. unfold accepts, rejects, Validate, https_only.
    cbn [Key AllowedSchemes]. rewrite String.eqb_refl, Hhttps, Hhttp, Hftp.
    cbn [negb Scheme Host]. repeat split; vm_compute; eauto.
Qed.

End url_plugin.

Lemma URL_policy_witness :
  (@url_Parse example_stdlib "https://api.example.com"
     = Some {| Scheme := "https"; Host := "api.example.com" |} /\
   @url_Parse example_stdlib "http://api.example.com"
     = Some {| Scheme := "http"; Host := "api.example.com" |} /\
   @url_Parse example_stdlib "ftp://x" = Some {| Scheme := "ftp"; Host := "x" |}) /\
  accepts (@URLValidationPlugin.Validate example_stdlib (https_only "API_URL")
             "API_URL" "https://api.example.com") /\
  rejects (@URLValidationPlugin.Validate example_stdlib (https_only "API_URL")
             "API_URL" "http://api.example.com") /\
  rejects (@URLValidationPlugin.Validate example_stdlib (https_only "API_URL")
             "API_URL" "ftp://x").
Proof.
  assert (@url_Parse example_stdlib "https://api.example.com"
          = Some {| Scheme := "https"; Host := "api.example.com" |}) as H1
    by (vm_compute; reflexivity).
  assert (@url_Parse example_stdlib "http://api.example.com"
          = Some {| Scheme := "http"; Host := "api.example.com" |}) as H2
    by (vm_compute; reflexivity).
  assert (@url_Parse example_stdlib "ftp://x"
          = Some {| Scheme := "ftp"; Host := "x" |}) as H3
    by (vm_compute; reflexivity).
  split; [exact (conj H1 (conj H2 H3)) |].
  destruct (proj2 (@URL_policy example_stdlib H1 H2 H3) "API_URL") as (Ha & Hb & Hc).
  split; [exact Ha |]. split; [| exact Hc].
  unfold rejects. rewrite Hb. cbn [snd]. eexists. reflexivity.
Defined.

(** * Further properties of the code *)

Section more_engine.
Context `{GoStdlib}.

(** X1.  When the file cannot be read, the run returns the loader's
    error behind the words "failed to load .env file: " (lines 107-110
    and 170-173), and the ledger of required keys is left as it was: no
    entry is visited and no key is marked. *)
Theorem load_failure_is_returned w v filePath err :
  godotenv_Read w filePath = inr err ->
  snd (ValidateDotEnv w v filePath)
    = Some (errorString ("failed to load .env file: " +:+ Error err)) /\
  requiredKeys (fst (ValidateDotEnv w v filePath)) = requiredKeys v.
Proof.
  intros Hread. rewrite ValidateDotEnv_verdict, ValidateDotEnv_ledger.
  unfold run_outcome, loadEnvFile. by rewrite Hread.
Qed.

Lemma scan_None_passes ps entries ledger :
  snd (scan ps entries ledger) = None -> passes ps entries.
Proof.
  revert ledger. induction entries as [|[k val] rest IH]; intros ledger; cbn [scan].
  - intros _ k val p Hin. by apply elem_of_nil in Hin.
  - destruct (first_error ps k val) eqn:E; [done |]. intros Hrest k' val' p Hin Hp.
    apply elem_of_cons in Hin as [[= -> ->]|Hin].
    + by apply (proj1 (first_error_None ps k val) E).
    + by apply (IH _ Hrest k' val' p).
Qed.

(** X2.  When the file is read, the run returns no error exactly when
    no plugin returns an error for an entry of the file and every
    required key that is not yet marked as seen is a key of the file.
    The order in which Go ranges over the two maps does not matter. *)
Theorem success_iff_all_pass_and_nothing_missing w v filePath envVars :
  World_ok w ->
  godotenv_Read w filePath = inl envVars ->
  snd (ValidateDotEnv w v filePath) = None <->
  passes (plugins v) (map_to_list envVars) /\
  forall k, requiredKeys v !! k = Some false -> is_Some (envVars !! k).
Proof.
  intros Hw Hread. split.
  - rewrite ValidateDotEnv_verdict. unfold run_outcome, loadEnvFile. rewrite Hread.
    destruct Hw as [Henv Hreq].
    destruct (scan (plugins v) (range_envVars w envVars) (requiredKeys v))
      as [ledger' [e|]] eqn:Hscan; cbn [snd]; [done |].
    assert (passes (plugins v) (map_to_list envVars)) as Hpass.
    { apply (passes_perm _ (range_envVars w envVars)); [apply Henv |].
      apply (scan_None_passes _ _ (requiredKeys v)). by rewrite Hscan. }
    apply scan_None in Hscan.
    destruct (missingKeys_of_range ledger' (range_requiredKeys w ledger') (Hreq _))
      as [_ Hmiss].
    destruct (missingKeys_of (range_requiredKeys w ledger')) as [|k0 rest] eqn:Em;
      [| done].
    intros _. split; [done |]. intros k Hk.
    destruct (envVars !! k) as [val|] eqn:Ek; [eauto |]. exfalso.
    apply (not_elem_of_nil k). apply Hmiss. rewrite Hscan, lookup_mark_all, Hk.
    cbn [fmap option_fmap option_map]. f_equal.
    apply bool_decide_eq_false_2.
    rewrite (elem_of_range_keys envVars _ k (Henv envVars)), Ek. by intros [? ?].
  - intros [Hpass Hpresent].
    destruct (run_without_rejection w v filePath envVars Hw Hread Hpass)
      as (missing & _ & Hmiss & -> & _).
    destruct missing as [|k rest]; [done |]. exfalso.
    destruct (proj1 (Hmiss k) (list_elem_of_here _ _)) as [Hk1 Hk2].
    destruct (Hpresent k Hk1) as [val Hval]. congruence.
Qed.

(** X3.  An error returned by a run is of one of three kinds: the
    wrapped error of the loader; an error that one of the validator's
    plugins returns for an entry of the file; or the list of missing
    keys, in which case every entry has passed every plugin, and the
    list holds, without repetition, exactly the required keys that were
    not marked before the run and are not in the file. *)
Theorem failure_kinds w v filePath e :
  World_ok w ->
  snd (ValidateDotEnv w v filePath) = Some e ->
  (exists err, godotenv_Read w filePath = inr err /\
               e = errorString ("failed to load .env file: " +:+ Error err)) \/
  (exists envVars k val p,
     godotenv_Read w filePath = inl envVars /\ envVars !! k = Some val /\
     p ∈ plugins v /\ snd (plugin_Validate p k val) = Some e) \/
  (exists envVars missing,
     godotenv_Read w filePath = inl envVars /\
     passes (plugins v) (map_to_list envVars) /\
     missing <> [] /\ NoDup missing /\ e = missing_error missing /\
     forall k, k ∈ missing <->
               requiredKeys v !! k = Some false /\ envVars !! k = None).
Proof.
  intros Hw. destruct (godotenv_Read w filePath) as [envVars|err] eqn:Hread.
  - destruct (snd (scan (plugins v) (range_envVars w envVars) (requiredKeys v)))
      as [e'|] eqn:Hscan.
    + rewrite ValidateDotEnv_verdict. unfold run_outcome, loadEnvFile. rewrite Hread.
      intros He. assert (e' = e) as ->.
      { destruct (scan _ _ _) as [ledger' o]. cbn [snd] in *. subst o.
        by injection He. }
      right. left.
      destruct (scan_error (plugins v) (range_envVars w envVars) (requiredKeys v) e Hscan)
        as (k & val & p & Hin & Hp & Hv).
      exists envVars, k, val, p. rewrite (proj1 Hw) in Hin.
      apply elem_of_map_to_list in Hin. done.
    + assert (passes (plugins v) (map_to_list envVars)) as Hpass.
      { apply (passes_perm _ (range_envVars w envVars)); [apply Hw |].
        by apply (scan_None_passes _ _ (requiredKeys v)). }
      destruct (run_without_rejection w v filePath envVars Hw Hread Hpass)
        as (missing & Hnodup & Hmiss & -> & _).
      destruct missing as [|k rest]; [done |]. cbn [length Nat.ltb Nat.leb].
      intros [= <-]. right. right. exists envVars, (k :: rest). done.
  - rewrite ValidateDotEnv_verdict. unfold run_outcome, loadEnvFile. rewrite Hread.
    intros [= <-]. left. by exists err.
Qed.

Lemma scan_marks_prefix ps entries ledger :
  exists n, fst (scan ps entries ledger) = mark_all (take n entries).*1 ledger.
Proof.
  revert ledger. induction entries as [|[k val] rest IH]; intros ledger; cbn [scan].
  - by exists 0%nat.
  - destruct (first_error ps k val).
    + by exists 1%nat.
    + destruct (IH (mark_seen k ledger)) as [n Hn]. exists (S n). by rewrite Hn.
Qed.

(** The ledger after a call: the ledger before with the flags of some of
    the visited keys set. *)
Lemma run_ledger_marks w ps ledger filePath :
  exists keys,
    fst (run_outcome w ps ledger filePath) = mark_all keys ledger /\
    forall k, k ∈ keys ->
      exists envVars val, godotenv_Read w filePath = inl envVars /\
                          (k, val) ∈ range_envVars w envVars.
Proof.
  unfold run_outcome, loadEnvFile.
  destruct (godotenv_Read w filePath) as [envVars|err].
  - destruct (scan_marks_prefix ps (range_envVars w envVars) ledger) as [n Hn].
    exists (take n (range_envVars w envVars)).*1. split.
    + by destruct (scan _ _ _) as [ledger' [e|]].
    + intros k Hk. apply list_elem_of_fmap in Hk as ([k' val] & -> & Hin).
      exists envVars, val. split; [done |].
      apply elem_of_take in Hin as (i & Hi & _). apply list_elem_of_lookup. eauto.
  - exists []. split; [done |]. intros k Hk. by apply elem_of_nil in Hk.
Qed.

(** X4.  What a run does to the validator.  The ledger keeps its set of
    keys (line 118 only marks keys that are in it); a key marked as seen
    stays marked; a key that becomes marked is the key of an entry of the
    file that was read; and the policy switches and the plugin list are
    not changed. *)
Theorem ledger_invariants w v filePath :
  dom (requiredKeys (fst (ValidateDotEnv w v filePath))) = dom (requiredKeys v) /\
  (forall k, requiredKeys v !! k = Some true ->
             requiredKeys (fst (ValidateDotEnv w v filePath)) !! k = Some true) /\
  (forall k, requiredKeys v !! k = Some false ->
             requiredKeys (fst (ValidateDotEnv w v filePath)) !! k = Some true ->
             exists envVars val, godotenv_Read w filePath = inl envVars /\
                                 (k, val) ∈ range_envVars w envVars) /\
  frame (fst (ValidateDotEnv w v filePath)) = frame v.
Proof.
  rewrite ValidateDotEnv_ledger.
  destruct (run_ledger_marks w (plugins v) (requiredKeys v) filePath)
    as (keys & -> & Hkeys).
  split; [| split; [| split]].
  - apply set_eq. intros k. rewrite !elem_of_dom, lookup_mark_all.
    apply fmap_is_Some.
  - intros k Hk. by rewrite lookup_mark_all, Hk.
  - intros k Hk. rewrite lookup_mark_all, Hk. cbn [fmap option_fmap option_map orb].
    intros [= Hin]. apply bool_decide_eq_true_1 in Hin. by apply Hkeys.
  - apply ValidateDotEnv_frame.
Qed.

Lemma plugins_after_run w v filePath :
  plugins (fst (ValidateDotEnv w v filePath)) = plugins v.
Proof. apply plugins_of_frame, ValidateDotEnv_frame. Qed.

(** X5.  Two runs of one validator, each on a file whose entries pass
    every plugin: since the marks of the first run are still there, the
    second run reports exactly the required keys that are in neither
    file, and succeeds when there is none, whatever the second file
    lacks on its own. *)
Theorem second_run_reports_keys_missing_from_both
    w1 w2 config (required : list string) filePath1 filePath2 envVars1 envVars2 :
  World_ok w1 -> World_ok w2 ->
  godotenv_Read w1 filePath1 = inl envVars1 ->
  godotenv_Read w2 filePath2 = inl envVars2 ->
  passes (plugins (NewValidator config required)) (map_to_list envVars1) ->
  passes (plugins (NewValidator config required)) (map_to_list envVars2) ->
  exists missing,
    NoDup missing /\
    (forall k, k ∈ missing <->
               k ∈ required /\ envVars1 !! k = None /\ envVars2 !! k = None) /\
    snd (ValidateDotEnv w2
           (fst (ValidateDotEnv w1 (NewValidator config required) filePath1))
           filePath2)
      = match missing with
        | [] => None
        | _ => Some (missing_error missing)
        end.
Proof.
  intros Hw1 Hw2 Hread1 Hread2 Hpass1 Hpass2.
  set (v0 := NewValidator config required) in *.
  destruct (run_without_rejection w1 v0 filePath1 envVars1 Hw1 Hread1 Hpass1)
    as (_ & _ & _ & _ & Hledger1).
  set (v1 := fst (ValidateDotEnv w1 v0 filePath1)) in *.
  assert (passes (plugins v1) (map_to_list envVars2)) as Hpass2'
    by (unfold v1; by rewrite plugins_after_run).
  destruct (run_without_rejection w2 v1 filePath2 envVars2 Hw2 Hread2 Hpass2')
    as (missing & Hnodup & Hmiss & -> & _).
  exists missing. split; [done |]. split; [| by destruct missing].
  intros k. rewrite Hmiss, Hledger1. unfold v0. cbn [NewValidator requiredKeys].
  rewrite lookup_new_ledger, lookup_empty.
  destruct (decide (k ∈ required)) as [Hin|Hnin].
  - rewrite (bool_decide_eq_true_2 (k ∈ required)) by done.
    cbn [fmap option_fmap option_map orb].
    destruct (envVars1 !! k) as [val|].
    + rewrite bool_decide_eq_true_2 by eauto.
      split; [intros [[=] _] | intros (_ & [=] & _)].
    + rewrite bool_decide_eq_false_2 by (intros [? [=]]). tauto.
  - rewrite (bool_decide_eq_false_2 (k ∈ required)) by done.
    cbn [fmap option_fmap option_map].
    split; [intros [[=] _] | tauto].
Qed.

(** X6.  The [Verbose] switch and the logger that is supplied, if any,
    change neither the returned error nor the ledger of a run. *)
Theorem outcome_independent_of_logging
    w config (required : list string) filePath verbose logger :
  snd (ValidateDotEnv w (NewValidator (with_logging verbose logger config) required)
         filePath)
    = snd (ValidateDotEnv w (NewValidator config required) filePath) /\
  requiredKeys (fst (ValidateDotEnv w
      (NewValidator (with_logging verbose logger config) required) filePath))
    = requiredKeys (fst (ValidateDotEnv w (NewValidator config required) filePath)).
Proof. rewrite !ValidateDotEnv_verdict, !ValidateDotEnv_ledger. by split. Qed.

Lemma first_error_app ps1 ps2 key value :
  first_error (ps1 ++ ps2) key value
    = match first_error ps1 key value with
      | Some e => Some e
      | None => first_error ps2 key value
      end.
Proof.
  induction ps1 as [|p ps1 IH]; cbn [app first_error]; [done |].
  by destruct (snd (plugin_Validate p key value)).
Qed.

Lemma eqb_neq (s t : string) : s <> t -> String.eqb s t = false.
Proof. intros Hne. by destruct (String.eqb_spec s t). Qed.

(** X9.  For a key other than the four that the registry names, every
    built-in plugin answers "not handled, no error" whatever the value,
    so that what the validator's plugins decide for such an entry is
    what the caller's plugins decide. *)
Theorem other_keys_are_left_to_the_caller_plugins
    config (required : list string) key value :
  key ∉ builtin_keys ->
  (forall q, q ∈ loadBuiltInPlugins -> plugin_Validate q key value = (false, None)) /\
  first_error (plugins (NewValidator config required)) key value
    = first_error (Plugins config) key value.
Proof.
  intros Hkey. unfold builtin_keys in Hkey.
  rewrite !not_elem_of_cons in Hkey. destruct Hkey as (H1 & H2 & H3 & H4 & _).
  assert (forall q, q ∈ loadBuiltInPlugins ->
                    plugin_Validate q key value = (false, None)) as Habstain.
  { intros q Hq. unfold loadBuiltInPlugins in Hq. in_list Hq;
      unfold plugin_Validate; cbn [plugin_methods plugin_self Validate
        URLValidationPlugin.plugin_methods EnumValidationPlugin.plugin_methods
        BooleanValidationPlugin.plugin_methods
        IPAddressValidationPlugin.plugin_methods].
    - unfold URLValidationPlugin.Validate. cbn [URLValidationPlugin.Key].
      by rewrite eqb_neq.
    - unfold EnumValidationPlugin.Validate. cbn [EnumValidationPlugin.Key].
      by rewrite eqb_neq.
    - unfold BooleanValidationPlugin.Validate. cbn [BooleanValidationPlugin.Key].
      by rewrite eqb_neq.
    - unfold IPAddressValidationPlugin.Validate. cbn [IPAddressValidationPlugin.Key].
      by rewrite eqb_neq. }
  split; [done |]. cbn [NewValidator plugins]. rewrite first_error_app.
  rewrite (proj2 (first_error_None loadBuiltInPlugins key value)); [done |].
  intros p Hp. by rewrite (Habstain p Hp).
Qed.

(** X10.  The built-in plugins are consulted before the caller's
    (line 34 appends [config.Plugins] to them): when a built-in plugin
    rejects the first entry that any plugin rejects, the run returns the
    error of the first such built-in plugin, whatever the caller's
    plugins would say about that entry. *)
Theorem builtin_rejection_comes_first
    w config (required : list string) filePath envVars pre key value post e :
  godotenv_Read w filePath = inl envVars ->
  range_envVars w envVars = pre ++ (key, value) :: post ->
  passes (plugins (NewValidator config required)) pre ->
  first_error loadBuiltInPlugins key value = Some e ->
  snd (ValidateDotEnv w (NewValidator config required) filePath) = Some e.
Proof.
  intros Hread Hrange Hpre He.
  rewrite ValidateDotEnv_verdict. unfold run_outcome, loadEnvFile.
  rewrite Hread, Hrange, (scan_rejected _ pre key value post _ e); [done | done |].
  cbn [NewValidator plugins]. by rewrite first_error_app, He.
Qed.

(** X11.  The ledger that [NewValidator] builds has exactly the required
    keys, each not yet seen; a key given more than once counts once. *)
Theorem NewValidator_builds_an_unseen_ledger config (required : list string) :
  (forall k, requiredKeys (NewValidator config required) !! k
             = if bool_decide (k ∈ required) then Some false else None) /\
  dom (requiredKeys (NewValidator config required)) = list_to_set required /\
  size (requiredKeys (NewValidator config required)) = length (remove_dups required).
Proof.
  assert (forall k, requiredKeys (NewValidator config required) !! k
             = if bool_decide (k ∈ required) then Some false else None) as Hlookup.
  { intros k. cbn [NewValidator requiredKeys]. by rewrite lookup_new_ledger, lookup_empty. }
  assert (dom (requiredKeys (NewValidator config required))
          = (list_to_set required : gset string)) as Hdom.
  { apply set_eq. intros k. rewrite elem_of_dom, Hlookup, elem_of_list_to_set.
    case_bool_decide; [split; eauto | split; [by intros [? ?] | done]]. }
  split; [done |]. split; [done |].
  rewrite <- size_dom, Hdom.
  assert ((list_to_set required : gset string) = list_to_set (remove_dups required)) as ->.
  { apply set_eq. intros k. by rewrite !elem_of_list_to_set, elem_of_remove_dups. }
  apply size_list_to_set, NoDup_remove_dups.
Qed.
End more_engine.

Section logging.
Context `{GoStdlib}.

Lemma log_extends_refl v : log_extends v v.
Proof. intros lg Hlg. by exists lg. Qed.

Lemma log_extends_trans v1 v2 v3 :
  log_extends v1 v2 -> log_extends v2 v3 -> log_extends v1 v3.
Proof.
  intros H12 H23 lg Hlg. destruct (H12 lg Hlg) as (lg2 & Hlg2 & Hl2 & Hp2).
  destruct (H23 lg2 Hlg2) as (lg3 & Hlg3 & Hl3 & Hp3).
  exists lg3. split; [done |]. split; [congruence | by etrans].
Qed.

Lemma log_extends_same_Logger v v' :
  Logger (config v') = Logger (config v) -> log_extends v v'.
Proof. intros Heq lg Hlg. exists lg. by rewrite Heq. Qed.

Lemma Log_level lg l msg : logrus.level (logrus.Log lg l msg) = logrus.level lg.
Proof. unfold logrus.Log. by destruct (logrus.IsLevelEnabled lg l). Qed.

Lemma Log_written lg l msg :
  logrus.written (logrus.Log lg l msg)
    = if logrus.IsLevelEnabled lg l then logrus.written lg ++ [(l, msg)]
      else logrus.written lg.
Proof. unfold logrus.Log. by destruct (logrus.IsLevelEnabled lg l). Qed.

Lemma log_extends_logged l msg v : log_extends v (logged l msg v).
Proof.
  intros lg Hlg. exists (logrus.Log lg l msg). unfold logged. cbn. rewrite Hlg.
  split; [done |]. split; [apply Log_level |].
  rewrite Log_written. destruct (logrus.IsLevelEnabled lg l); [| done].
  by apply prefix_app_r.
Qed.

Lemma keeps_log_ret {A} (a : A) : keeps_log (Stmt.ret a).
Proof. intros v. apply log_extends_refl. Qed.

Lemma keeps_log_Return {A} e : keeps_log (@Stmt.Return A e).
Proof. intros v. apply log_extends_refl. Qed.

Lemma keeps_log_log l msg : keeps_log (Stmt.log l msg).
Proof. intros v. apply log_extends_logged. Qed.

Lemma keeps_log_bind {A B} (m : Stmt.M A) (k : A -> Stmt.M B) :
  keeps_log m -> (forall a, keeps_log (k a)) -> keeps_log (Stmt.bind m k).
Proof.
  intros Hm Hk v. unfold Stmt.bind. specialize (Hm v).
  destruct (m v) as [v1 [a|e]]; cbn [fst] in *; [| done].
  eapply log_extends_trans; [exact Hm | apply Hk].
Qed.

Lemma keeps_log_get_bind {B} (k : Validator -> Stmt.M B) :
  (forall v, log_extends v (fst (k v v))) -> keeps_log (Stmt.bind Stmt.get k).
Proof. intros Hk v. apply Hk. Qed.

Lemma keeps_log_when b m : keeps_log m -> keeps_log (Stmt.when b m).
Proof. destruct b; [done | intros _; apply keeps_log_ret]. Qed.

Lemma keeps_log_for_range {A} (l : list A) body :
  (forall x, keeps_log (body x)) -> keeps_log (Stmt.for_range l body).
Proof.
  intros Hbody. induction l as [|x l IH]; cbn [Stmt.for_range].
  - apply keeps_log_ret.
  - apply keeps_log_bind; [apply Hbody | intros _; exact IH].
Qed.

Lemma keeps_log_init_Logger : keeps_log init_Logger.
Proof.
  apply keeps_log_get_bind. intros v lg Hlg. rewrite Hlg. cbn. by exists lg.
Qed.

Lemma keeps_log_log_configuration : keeps_log log_configuration.
Proof.
  apply keeps_log_get_bind. intros v. apply keeps_log_when.
  repeat (apply keeps_log_bind; [apply keeps_log_log | intros _]).
  apply keeps_log_log.
Qed.

Lemma keeps_log_mark_required key : keeps_log (mark_required key).
Proof.
  apply keeps_log_get_bind. intros v. destruct (requiredKeys v !! key).
  - apply keeps_log_bind.
    + intros v0. by apply log_extends_same_Logger.
    + intros _. apply keeps_log_when, keeps_log_log.
  - apply keeps_log_when, keeps_log_log.
Qed.

Lemma keeps_log_apply_plugin key value p : keeps_log (apply_plugin key value p).
Proof.
  apply keeps_log_get_bind. intros v.
  destruct (plugin_Validate p key value) as [handled [e|]].
  - apply keeps_log_bind; [| intros _; apply keeps_log_Return].
    destruct (Verbose (config v)); apply keeps_log_log.
  - apply keeps_log_when, keeps_log_log.
Qed.

Lemma keeps_log_process_entry entry : keeps_log (process_entry entry).
Proof.
  destruct entry as [key value]. apply keeps_log_get_bind. intros v.
  apply keeps_log_bind; [apply keeps_log_when, keeps_log_log | intros _].
  apply keeps_log_bind; [apply keeps_log_mark_required | intros _].
  apply keeps_log_for_range. intros p. apply keeps_log_apply_plugin.
Qed.

Lemma keeps_log_check_missing w : keeps_log (check_missing w).
Proof.
  apply keeps_log_get_bind. intros v. cbv zeta.
  destruct (0 <? length _)%nat;
    (apply keeps_log_bind; [apply keeps_log_log | intros _; apply keeps_log_Return]).
Qed.

Lemma keeps_log_after_init w filePath :
  keeps_log (log_configuration ;;;
             Stmt.Infof ("Starting validation for file: " +:+ filePath) ;;;
             match loadEnvFile w filePath with
             | inr err =>
                 Stmt.Return (Some (errorString
                                      ("failed to load .env file: " +:+ Error err)))
             | inl envVars =>
                 Stmt.for_range (range_envVars w envVars) process_entry ;;;
                 check_missing w
             end).
Proof.
  apply keeps_log_bind; [apply keeps_log_log_configuration | intros _].
  apply keeps_log_bind; [apply keeps_log_log | intros _].
  destruct (loadEnvFile w filePath).
  - apply keeps_log_bind; [| intros _; apply keeps_log_check_missing].
    apply keeps_log_for_range. intros entry. apply keeps_log_process_entry.
  - apply keeps_log_Return.
Qed.

Lemma fst_ValidateDotEnv w v filePath :
  fst (ValidateDotEnv w v filePath) = fst (ValidateDotEnv_body w filePath v).
Proof.
  unfold ValidateDotEnv. by destruct (ValidateDotEnv_body w filePath v) as [v' [[]|e]].
Qed.

(** X8.  A run never replaces or rewinds a logger that was supplied:
    after the run the validator holds a logger of the same level whose
    output starts with what had been written before.  When none was
    supplied, the run installs a new one, at [DebugLevel] when [Verbose]
    is set and at [InfoLevel] otherwise (lines 88-95). *)
Theorem logger_is_kept_and_only_appended_to w v filePath :
  (forall lg, Logger (config v) = Some lg ->
     exists lg', Logger (config (fst (ValidateDotEnv w v filePath))) = Some lg' /\
       logrus.level lg' = logrus.level lg /\
       logrus.written lg `prefix_of` logrus.written lg') /\
  (Logger (config v) = None ->
     exists lg', Logger (config (fst (ValidateDotEnv w v filePath))) = Some lg' /\
       logrus.level lg'
         = if Verbose (config v) then logrus.DebugLevel else logrus.InfoLevel).
Proof.
  rewrite fst_ValidateDotEnv. split.
  - assert (keeps_log (ValidateDotEnv_body w filePath)) as Hbody.
    { apply keeps_log_bind; [apply keeps_log_init_Logger | intros _].
      apply keeps_log_after_init. }
    apply Hbody.
  - intros Hnil. unfold ValidateDotEnv_body, Stmt.bind at 1.
    unfold init_Logger at 1, Stmt.bind at 1, Stmt.get. rewrite Hnil.
    unfold Stmt.modify.
    match goal with |- context [fst (?m ?v1)] =>
      destruct (keeps_log_after_init w filePath v1 (effective_Logger v))
        as (lg' & Hlg' & Hlevel & _) end.
    + unfold effective_Logger. by rewrite Hnil.
    + exists lg'. split; [exact Hlg' |]. rewrite Hlevel.
      unfold effective_Logger. rewrite Hnil. by destruct (Verbose (config v)).
Qed.

End logging.

Section quiet.
Context `{GoStdlib}.

Lemma set_requiredKeys_same v : set_requiredKeys (requiredKeys v) v = v.
Proof. by destruct v. Qed.

Lemma quiet_apply_plugin key value p v :
  Verbose (config v) = false ->
  apply_plugin key value p v =
    match snd (plugin_Validate p key value) with
    | None => (v, inl tt)
    | Some e =>
        (logged logrus.ErrorLevel (snd (quiet_violation_line key e)) v, inr (Some e))
    end.
Proof.
  intros Hq. unfold apply_plugin, Stmt.bind at 1, Stmt.get. rewrite Hq.
  destruct (plugin_Validate p key value) as [handled [e|]]; cbn [snd].
  - reflexivity.
  - by rewrite andb_false_r.
Qed.

Lemma quiet_for_plugins key value ps v :
  Verbose (config v) = false ->
  Stmt.for_range ps (apply_plugin key value) v =
    match first_error ps key value with
    | None => (v, inl tt)
    | Some e =>
        (logged logrus.ErrorLevel (snd (quiet_violation_line key e)) v, inr (Some e))
    end.
Proof.
  intros Hq. induction ps as [|p ps IH]; cbn [Stmt.for_range first_error]; [done |].
  unfold Stmt.bind. rewrite quiet_apply_plugin by done.
  by destruct (snd (plugin_Validate p key value)).
Qed.

Lemma quiet_process_entry key value v :
  Verbose (config v) = false ->
  process_entry (key, value) v =
    let v1 := set_requiredKeys (mark_seen key (requiredKeys v)) v in
    match first_error (plugins v) key value with
    | None => (v1, inl tt)
    | Some e =>
        (logged logrus.ErrorLevel (snd (quiet_violation_line key e)) v1, inr (Some e))
    end.
Proof.
  intros Hq. unfold process_entry, Stmt.bind at 1, Stmt.get. rewrite Hq.
  cbn [Stmt.when]. unfold Stmt.bind at 1, Stmt.ret.
  assert (mark_required key v
          = (set_requiredKeys (mark_seen key (requiredKeys v)) v, inl tt)) as Hmark.
  { unfold mark_required, mark_seen, Stmt.bind at 1, Stmt.get. rewrite Hq.
    destruct (requiredKeys v !! key); [reflexivity |].
    cbn [Stmt.when]. unfold Stmt.ret. by rewrite set_requiredKeys_same. }
  unfold Stmt.bind. rewrite Hmark. cbv zeta. by rewrite quiet_for_plugins.
Qed.

(** The loop over the entries when [Verbose] is off: the logger is
    untouched unless the loop is left by a rejection, which costs one
    line. *)
Lemma quiet_entries entries v :
  Verbose (config v) = false ->
  exists v', frame v' = frame v /\
    match snd (scan (plugins v) entries (requiredKeys v)) with
    | None =>
        Stmt.for_range entries process_entry v = (v', inl tt) /\
        requiredKeys v' = fst (scan (plugins v) entries (requiredKeys v)) /\
        Logger (config v') = Logger (config v)
    | Some e =>
        Stmt.for_range entries process_entry v = (v', inr (Some e)) /\
        exists key value, (key, value) ∈ entries /\
          Logger (config v')
            = (fun lg => logrus.Log lg logrus.ErrorLevel
                           (snd (quiet_violation_line key e)))
              <$> Logger (config v)
    end.
Proof.
  revert v. induction entries as [|[key value] rest IH]; intros v Hq;
    cbn [Stmt.for_range scan].
  - exists v. by repeat split.
  - unfold Stmt.bind. rewrite quiet_process_entry by done. cbv zeta.
    destruct (first_error (plugins v) key value) as [e|]; cbn [snd].
    + eexists. split; [| split; [reflexivity |]]; [done |].
      exists key, value. split; [apply list_elem_of_here | done].
    + destruct (IH (set_requiredKeys (mark_seen key (requiredKeys v)) v) Hq)
        as (v' & F & Hrest).
      exists v'. split; [by rewrite F |]. cbn [plugins set_requiredKeys requiredKeys] in Hrest.
      destruct (snd (scan (plugins v) rest (mark_seen key (requiredKeys v)))) as [e|].
      * destruct Hrest as (E & k & val & Hin & Hlog). split; [done |].
        exists k, val. split; [by apply list_elem_of_further | done].
      * done.
Qed.

Lemma IsLevelEnabled_Log lg l msg l' :
  logrus.IsLevelEnabled (logrus.Log lg l msg) l' = logrus.IsLevelEnabled lg l'.
Proof. unfold logrus.IsLevelEnabled. by rewrite Log_level. Qed.

Lemma Error_enabled_of_Info lg :
  logrus.IsLevelEnabled lg logrus.InfoLevel = true ->
  logrus.IsLevelEnabled lg logrus.ErrorLevel = true.
Proof.
  unfold logrus.IsLevelEnabled. cbn [logrus.level_num]. intros Hi.
  apply Nat.leb_le in Hi. apply Nat.leb_le. lia.
Qed.

(** What is left of [ValidateDotEnv] after its first three statements
    when [Verbose] is off, and the state they lead to. *)
Lemma quiet_prologue w v filePath :
  Verbose (config v) = false ->
  exists v3, frame v3 = frame v /\ requiredKeys v3 = requiredKeys v /\
    Logger (config v3)
      = Some (logrus.Log (effective_Logger v) logrus.InfoLevel
                (snd (start_line filePath))) /\
    ValidateDotEnv w v filePath =
      match
        match godotenv_Read w filePath with
        | inr err =>
            Stmt.Return (Some (errorString
                                 ("failed to load .env file: " +:+ Error err)))
        | inl envVars =>
            Stmt.for_range (range_envVars w envVars) process_entry ;;;
            check_missing w
        end v3
      with
      | (v', inr e) => (v', e)
      | (v', inl _) => (v', None)
      end.
Proof.
  intros Hq.
  assert (exists v1, init_Logger v = (v1, inl tt) /\ frame v1 = frame v /\
            requiredKeys v1 = requiredKeys v /\
            Logger (config v1) = Some (effective_Logger v)) as (v1 & E1 & F1 & R1 & L1).
  { unfold init_Logger, effective_Logger, Stmt.bind, Stmt.get.
    destruct (Logger (config v)) as [lg|] eqn:Hlg.
    - exists v. by repeat split.
    - eexists. split; [reflexivity |]. by repeat split. }
  assert (Verbose (config v1) = false) as Hq1
    by (by rewrite (Verbose_of_frame _ _ F1)).
  assert (log_configuration v1 = (v1, inl tt)) as E2.
  { unfold log_configuration, Stmt.bind, Stmt.get. by rewrite Hq1. }
  exists (logged logrus.InfoLevel (snd (start_line filePath)) v1).
  split; [by rewrite <- F1 |]. split; [by rewrite <- R1 |]. split.
  - unfold logged. cbn [set_Logger config Logger]. by rewrite L1.
  - unfold ValidateDotEnv, ValidateDotEnv_body, loadEnvFile.
    unfold Stmt.bind at 1. rewrite E1. unfold Stmt.bind at 1. rewrite E2.
    unfold Stmt.bind at 1. cbn [Stmt.Infof Stmt.log Stmt.modify].
    destruct (godotenv_Read w filePath); reflexivity.
Qed.

(** The loop over the entries and the check of the ledger when
    [Verbose] is off: one more line, and the error returned. *)
Lemma quiet_epilogue w entries v3 lg3 :
  Verbose (config v3) = false ->
  Logger (config v3) = Some lg3 ->
  logrus.IsLevelEnabled lg3 logrus.InfoLevel = true ->
  exists vf verdict lgf line,
    (Stmt.for_range entries process_entry ;;; check_missing w) v3
      = (vf, inr verdict) /\
    Logger (config vf) = Some lgf /\
    logrus.written lgf = logrus.written lg3 ++ [line] /\
    match verdict with
    | None => line = valid_line
    | Some e =>
        (exists key value, (key, value) ∈ entries /\
                           line = quiet_violation_line key e) \/
        (exists missing,
           line = (logrus.ErrorLevel,
                   "missing required keys: " +:+ fmt.v_strings missing) /\
           e = missing_error missing)
    end.
Proof.
  intros Hq3 L3 Hinfo3. pose proof (Error_enabled_of_Info _ Hinfo3) as Herr3.
  destruct (quiet_entries entries v3 Hq3) as (v4 & F4 & Hloop).
  unfold Stmt.bind.
  destruct (snd (scan (plugins v3) entries (requiredKeys v3))) as [e|].
  - destruct Hloop as (-> & key & value & Hin & L4).
    exists v4, (Some e), (logrus.Log lg3 logrus.ErrorLevel
                            (snd (quiet_violation_line key e))),
      (quiet_violation_line key e).
    split; [done |]. split; [by rewrite L4, L3 |]. split.
    + by rewrite Log_written, Herr3.
    + left. by exists key, value.
  - destruct Hloop as (-> & R4 & L4).
    unfold check_missing, Stmt.bind at 1, Stmt.get. cbv zeta.
    destruct (0 <? length (missingKeys_of (range_requiredKeys w (requiredKeys v4))))%nat.
    + unfold Stmt.bind, Stmt.Error, Stmt.log, Stmt.modify, Stmt.Return.
      do 2 eexists. exists (logrus.Log lg3 logrus.ErrorLevel
        ("missing required keys: " +:+ fmt.v_strings
           (missingKeys_of (range_requiredKeys w (requiredKeys v4))))).
      eexists. split; [reflexivity |]. split.
      { cbn [set_Logger config Logger]. by rewrite L4, L3. }
      split; [by rewrite Log_written, Herr3 |].
      right. eexists. split; reflexivity.
    + unfold Stmt.bind, Stmt.Infof, Stmt.log, Stmt.modify, Stmt.Return.
      do 2 eexists. exists (logrus.Log lg3 logrus.InfoLevel ".env file is valid.").
      exists valid_line. split; [reflexivity |]. split.
      { cbn [set_Logger config Logger]. by rewrite L4, L3. }
      split; [by rewrite Log_written, Hinfo3 | done].
Qed.

(** X7.  What a run writes when [Verbose] is off and the logger lets
    [InfoLevel] through.  It appends the start line, and then, if the
    file could be read, exactly one more line: ".env file is valid." on
    success, and otherwise one line at [ErrorLevel], either the
    rejection with the key of an entry of the file, or the list of
    missing keys.  A failure of the loader is returned but not logged
    by the run. *)
Theorem quiet_run_writes_two_lines w v filePath :
  Verbose (config v) = false ->
  logrus.IsLevelEnabled (effective_Logger v) logrus.InfoLevel = true ->
  exists lg',
    Logger (config (fst (ValidateDotEnv w v filePath))) = Some lg' /\
    match godotenv_Read w filePath with
    | inr _ =>
        logrus.written lg'
          = logrus.written (effective_Logger v) ++ [start_line filePath]
    | inl envVars =>
        exists line,
          logrus.written lg'
            = logrus.written (effective_Logger v) ++ [start_line filePath; line] /\
          match snd (ValidateDotEnv w v filePath) with
          | None => line = valid_line
          | Some e =>
              (exists key value, (key, value) ∈ range_envVars w envVars /\
                                 line = quiet_violation_line key e) \/
              (exists missing,
                 line = (logrus.ErrorLevel,
                         "missing required keys: " +:+ fmt.v_strings missing) /\
                 e = missing_error missing)
          end
    end.
Proof.
  intros Hq Hinfo.
  destruct (quiet_prologue w v filePath Hq) as (v3 & F3 & R3 & L3 & ->).
  set (eff := effective_Logger v) in *.
  set (lg3 := logrus.Log eff logrus.InfoLevel (snd (start_line filePath))) in *.
  assert (logrus.written lg3 = logrus.written eff ++ [start_line filePath]) as W3
    by (unfold lg3; by rewrite Log_written, Hinfo).
  assert (logrus.IsLevelEnabled lg3 logrus.InfoLevel = true) as Hinfo3
    by (unfold lg3; by rewrite IsLevelEnabled_Log).
  destruct (godotenv_Read w filePath) as [envVars|err].
  2: { exists lg3. by split. }
  assert (Verbose (config v3) = false) as Hq3
    by (by rewrite (Verbose_of_frame _ _ F3)).
  destruct (quiet_epilogue w (range_envVars w envVars) v3 lg3 Hq3 L3 Hinfo3)
    as (vf & verdict & lgf & line & -> & Lf & Wf & Hline).
  cbn [fst snd]. exists lgf. split; [done |]. exists line. split; [| done].
  by rewrite Wf, W3, <- app_assoc.
Qed.

End quiet.

Section private_v4_ranges.
Import IPAddressValidationPlugin.
Local Open Scope Z_scope.

(** X12.  For an IPv4 address [a.b.c.d], in the 16-byte form that the
    parser returns, [isPrivateIP] holds exactly in 10.0.0.0/8,
    172.16.0.0/12 and 192.168.0.0/16; the loopback range 127.0.0.0/8 is
    not among the blocks. *)
Theorem private_IPv4_ranges a b c d :
  is_byte a -> is_byte b -> is_byte c -> is_byte d ->
  isPrivateIP (net.v4InV6Prefix ++ [a; b; c; d]) = true <->
  a = 10 \/ (a = 172 /\ 16 <= b <= 31) \/ (a = 192 /\ b = 168).
Proof.
  intros Ha Hb Hc Hd. rewrite isPrivateIP_v4 by assumption. unfold private_v4.
  rewrite !orb_true_iff, !andb_true_iff, !Z.eqb_eq, !Z.leb_le. tauto.
Qed.

End private_v4_ranges.

Section private_v6.
Import IPAddressValidationPlugin.
Local Open Scope Z_scope.

Lemma land_254 b : 0 <= b < 256 -> (252 =? Z.land b 254) = (b =? 252) || (b =? 253).
Proof.
  intros Hb. apply Bool.eqb_prop.
  exact (byte_cases (fun b => Bool.eqb (252 =? Z.land b 254) ((b =? 252) || (b =? 253)))
           ltac:(vm_compute; reflexivity) b Hb).
Qed.

Lemma Contains_v4_block_v6 n1 n2 n3 n4 m1 m2 m3 m4 ip :
  net.To4 ip = None -> length ip = 16%nat ->
  net.Contains {| net.IPNet_IP := [n1; n2; n3; n4]; net.Mask := [m1; m2; m3; m4] |} ip
  = false.
Proof.
  intros H4 Hlen. unfold net.Contains. cbn [net.networkNumberAndMask net.IPNet_IP
    net.Mask net.To4 length Nat.eqb net.IPv4len net.IPv6len].
  rewrite H4, Hlen. reflexivity.
Qed.

(** [Contains] for an IPv6 network and an IPv6 address: the masked
    bytes are compared one by one. *)
Lemma Contains_v6 nn m ip :
  length nn = 16%nat -> length m = 16%nat -> length ip = 16%nat ->
  net.To4 nn = None -> net.To4 ip = None ->
  net.Contains {| net.IPNet_IP := nn; net.Mask := m |} ip
  = forallb (fun '(a, b) => a =? b) (zip (zip_with Z.land nn m) (zip_with Z.land ip m)).
Proof.
  intros Hnn Hm Hip Hnn4 Hip4. unfold net.Contains, net.networkNumberAndMask.
  cbn [net.IPNet_IP net.Mask]. rewrite Hnn4, Hip4, Hnn, Hm, Hip.
  cbn [Nat.eqb net.IPv6len net.IPv4len]. rewrite Hnn.
  change (16 =? net.IPv4len)%nat with false. cbn iota. by rewrite Hnn.
Qed.

(** X13.  For an IPv6 address that is not an IPv4 address in disguise,
    [isPrivateIP] holds exactly for [::1] and for the addresses of
    [fc00::/7], those whose first byte is [0xfc] or [0xfd]. *)
Theorem isPrivateIP_v6 (ip : net.IP) :
  length ip = 16%nat -> Forall is_byte ip -> net.To4 ip = None ->
  isPrivateIP ip = true <->
  ip = loopback6 \/ nth 0 ip 0 = 252 \/ nth 0 ip 0 = 253.
Proof.
  intros Hlen Hbytes H4. unfold isPrivateIP. rewrite privateIPBlocks_parsed.
  cbn [existsb]. rewrite !Contains_v4_block_v6 by done. cbn [orb].
  rewrite !Contains_v6 by done. clear H4.
  do 17 (destruct ip as [|? ip]; try discriminate Hlen). clear Hlen.
  repeat match goal with H : Forall _ (_ :: _) |- _ =>
    apply Forall_cons in H as [? H] end.
  unfold is_byte in *.
  cbn [zip_with zip forallb nth replicate].
  rewrite !Z.land_0_r, !land_255 by done.
  change (Z.land 0 255) with 0. change (Z.land 1 255) with 1.
  change (Z.land 252 254) with 252. change (Z.land 0 0) with 0.
  rewrite land_254 by done. change (0 =? 0) with true. cbn [andb].
  rewrite !andb_true_r, orb_false_r, !orb_true_iff, !andb_true_iff, !Z.eqb_eq.
  unfold loopback6. split.
  - intros [Heq | [?|?]]; [left | right; by left | right; by right].
    repeat match goal with H : _ /\ _ |- _ => destruct H end. by subst.
  - intros [[=] | [?|?]]; [left | right; by left | right; by right].
    subst. done.
Qed.

End private_v6.

Section builtin_ip.
Context `{GoStdlib}.

(** X19.  The plugin that the registry installs for [TRUSTED_PROXY_IP]
    (both families allowed, private addresses only), on a value whose
    trimmed text parses as the IPv4 address [a.b.c.d]: the value is
    accepted exactly when the address is in 10.0.0.0/8, 172.16.0.0/12 or
    192.168.0.0/16. *)
Theorem builtin_IP_plugin_accepts_private_IPv4_only key value a b c d :
  net.ParseIP (strings.TrimSpace value) = Some (net.v4InV6Prefix ++ [a; b; c; d]) ->
  is_byte a -> is_byte b -> is_byte c -> is_byte d ->
  accepts (IPAddressValidationPlugin.Validate (builtin_IP_plugin key) key value) <->
  private_v4 a b = true.
Proof.
  intros Hparse Ha Hb Hc Hd. unfold accepts, IPAddressValidationPlugin.Validate.
  cbn [builtin_IP_plugin IPAddressValidationPlugin.Key
       IPAddressValidationPlugin.AllowedIPVersions
       IPAddressValidationPlugin.MustBePrivate].
  rewrite String.eqb_refl, Hparse. cbn [negb length Nat.ltb Nat.leb andb].
  assert (IPAddressValidationPlugin.version_loop
            (net.v4InV6Prefix ++ [a; b; c; d]) ["IPv4"; "IPv6"] = true) as ->
    by reflexivity.
  cbn [negb]. rewrite isPrivateIP_v4 by done.
  destruct (private_v4 a b); cbn [negb]; split; done.
Qed.

End builtin_ip.

Section more_plugins.
Context `{GoStdlib}.

(** X14.  A list of allowed IP versions that is not empty and holds
    none of the two names [ipv4] and [ipv6] (in any letter case) makes
    the plugin reject every value of its key: the text that does not
    parse is rejected as such, and the switch of lines 94-103 has no
    case for any address that does. *)
Theorem unknown_version_names_reject_everything
    (p : IPAddressValidationPlugin.t) value :
  IPAddressValidationPlugin.AllowedIPVersions p <> [] ->
  (forall version, version ∈ IPAddressValidationPlugin.AllowedIPVersions p ->
     strings.ToLower version <> "ipv4" /\ strings.ToLower version <> "ipv6") ->
  rejects (IPAddressValidationPlugin.Validate p (IPAddressValidationPlugin.Key p) value).
Proof.
  intros Hne Hnames.
  destruct (IP_Validate_own_key p value) as [[Hr _]|[_ Hg]]; [done |].
  exfalso. apply Hg. unfold IP_rejection_grounds.
  destruct (net.ParseIP (strings.TrimSpace value)) as [ip|]; [| by left].
  right. exists ip. split; [done |]. left. split; [done |].
  intros (version & Hin & [[H4 _]|[H6 _]]); by destruct (Hnames version Hin).
Qed.

(** X15.  The value never appears in the error of a built-in plugin.
    The Boolean and the Enum plugin return one and the same result for
    any two values they reject; for a plugin and a key, the IP plugin
    has at most three errors and the URL plugin at most two, whatever
    the value. *)
Theorem rejection_reasons_do_not_depend_on_the_value key :
  (forall (p : BooleanValidationPlugin.t) value value',
     rejects (BooleanValidationPlugin.Validate p key value) ->
     rejects (BooleanValidationPlugin.Validate p key value') ->
     BooleanValidationPlugin.Validate p key value
       = BooleanValidationPlugin.Validate p key value') /\
  (forall (p : EnumValidationPlugin.t) value value',
     rejects (EnumValidationPlugin.Validate p key value) ->
     rejects (EnumValidationPlugin.Validate p key value') ->
     EnumValidationPlugin.Validate p key value
       = EnumValidationPlugin.Validate p key value') /\
  (forall p : IPAddressValidationPlugin.t,
     exists e1 e2 e3, forall value e,
       snd (IPAddressValidationPlugin.Validate p key value) = Some e ->
       e = e1 \/ e = e2 \/ e = e3) /\
  (forall p : URLValidationPlugin.t,
     exists e1 e2, forall value e,
       snd (URLValidationPlugin.Validate p key value) = Some e ->
       e = e1 \/ e = e2).
Proof.
  split; [| split; [| split]].
  - intros p value value'. unfold rejects, BooleanValidationPlugin.Validate.
    destruct (negb (String.eqb key (BooleanValidationPlugin.Key p)));
      [by intros [? [=]] |].
    destruct (negb (BooleanValidationPlugin.valid_loop
                      (strings.ToLower (strings.TrimSpace value)) _));
      [| destruct (BooleanValidationPlugin.Standardize p); by intros [? [=]]].
    destruct (negb (BooleanValidationPlugin.valid_loop
                      (strings.ToLower (strings.TrimSpace value')) _));
      [done | destruct (BooleanValidationPlugin.Standardize p); by intros _ [? [=]]].
  - intros p value value'. unfold rejects, EnumValidationPlugin.Validate.
    destruct (negb (String.eqb key (EnumValidationPlugin.Key p)));
      [by intros [? [=]] |].
    destruct (EnumValidationPlugin.allowed_loop _ value _); [by intros [? [=]] |].
    destruct (EnumValidationPlugin.allowed_loop _ value' _); [by intros _ [? [=]] |].
    done.
  - intros p. do 3 eexists. intros value e.
    unfold IPAddressValidationPlugin.Validate.
    destruct (negb (String.eqb key (IPAddressValidationPlugin.Key p))); [done |].
    destruct (net.ParseIP _) as [ip|]; cbn [snd].
    + destruct (_ && _); cbn [snd].
      * intros [= <-]. right. left. reflexivity.
      * destruct (_ && _); cbn [snd]; [| done].
        intros [= <-]. right. right. reflexivity.
    + intros [= <-]. left. reflexivity.
  - intros p. do 2 eexists. intros value e.
    unfold URLValidationPlugin.Validate.
    destruct (negb (String.eqb key (URLValidationPlugin.Key p))); [done |].
    destruct (url_Parse value) as [u|]; cbn [snd].
    + destruct (_ || _); cbn [snd]; [intros [= <-]; left; reflexivity |].
      destruct (_ && _); cbn [snd]; [| done].
      intros [= <-]. right. reflexivity.
    + intros [= <-]. left. reflexivity.
Qed.

Lemma allowed_loop_fold value value' allowed :
  strings.all bytes.isASCII value = true ->
  strings.all bytes.isASCII value' = true ->
  Forall (fun a => strings.all bytes.isASCII a = true) allowed ->
  strings.map bytes.lower value = strings.map bytes.lower value' ->
  EnumValidationPlugin.allowed_loop false value allowed
    = EnumValidationPlugin.allowed_loop false value' allowed.
Proof.
  intros Hv Hv' Hall Heq. induction Hall as [|a rest Ha Hrest IH];
    cbn [EnumValidationPlugin.allowed_loop]; [done |].
  rewrite !EqualFold_ascii, Heq, IH by done. reflexivity.
Qed.

(** X16.  A case-insensitive Enum plugin whose allowed values are ASCII
    gives the same result for two ASCII values that differ only in the
    case of their letters. *)
Theorem Enum_ignores_letter_case_when_insensitive
    (p : EnumValidationPlugin.t) key value value' :
  EnumValidationPlugin.CaseSensitive p = false ->
  strings.all bytes.isASCII value = true ->
  strings.all bytes.isASCII value' = true ->
  Forall (fun a => strings.all bytes.isASCII a = true)
         (EnumValidationPlugin.AllowedValues p) ->
  strings.map bytes.lower value = strings.map bytes.lower value' ->
  EnumValidationPlugin.Validate p key value = EnumValidationPlugin.Validate p key value'.
Proof.
  intros Hcs Hv Hv' Hall Heq. unfold EnumValidationPlugin.Validate. rewrite Hcs.
  by rewrite (allowed_loop_fold value value').
Qed.

End more_plugins.

Section trimming.
Context `{GoStdlib}.

Lemma all_Forall f s :
  strings.all f s = true <-> Forall (fun c => f c = true) (list_ascii_of_string s).
Proof.
  induction s as [|c s IH]; cbn [strings.all list_ascii_of_string].
  - split; [constructor | done].
  - rewrite andb_true_iff, Forall_cons, IH. done.
Qed.

Lemma list_of_append s t :
  list_ascii_of_string (s +:+ t) = list_ascii_of_string s ++ list_ascii_of_string t.
Proof. induction s as [|c s IH]; simpl; [done | by rewrite IH]. Qed.

Lemma list_of_map f s :
  list_ascii_of_string (strings.map f s) = List.map f (list_ascii_of_string s).
Proof. induction s as [|c s IH]; simpl; [done | by rewrite IH]. Qed.

Lemma string_of_map f l :
  string_of_list_ascii (List.map f l) = strings.map f (string_of_list_ascii l).
Proof. induction l as [|c l IH]; simpl; [done | by rewrite IH]. Qed.

Lemma skip_space_Forall P l : Forall P l -> Forall P (skip_space l).
Proof.
  induction 1 as [|c l Hc Hl IH]; cbn [skip_space]; [constructor |].
  destruct (bytes.asciiSpace c); [done | by constructor].
Qed.

Lemma TrimSpace_start_ascii s :
  strings.all bytes.isASCII s = true ->
  strings.TrimSpace_start s
    = inl (string_of_list_ascii (skip_space (list_ascii_of_string s))).
Proof.
  induction s as [|c s IH]; cbn [strings.all strings.TrimSpace_start
    list_ascii_of_string skip_space]; [done |].
  intros Hs. apply andb_prop in Hs as [Hc Hs]. rewrite Hc. cbn [negb].
  destruct (bytes.asciiSpace c); [by apply IH |].
  cbn [string_of_list_ascii]. by rewrite string_of_list_ascii_of_string.
Qed.

Lemma TrimSpace_stop_ascii r :
  Forall (fun c => bytes.isASCII c = true) r ->
  strings.TrimSpace_stop r = string_of_list_ascii (rev (skip_space r)).
Proof.
  induction 1 as [|c r Hc Hr IH]; cbn [strings.TrimSpace_stop skip_space]; [done |].
  rewrite Hc. cbn [negb]. by destruct (bytes.asciiSpace c).
Qed.

(** On ASCII text [strings.TrimSpace] removes the leading and the
    trailing ASCII white space and nothing else. *)
Lemma TrimSpace_ascii s :
  strings.all bytes.isASCII s = true -> strings.TrimSpace s = trimmed s.
Proof.
  intros Hs. unfold strings.TrimSpace, trimmed. rewrite TrimSpace_start_ascii by done.
  rewrite list_ascii_of_string_of_list_ascii. apply TrimSpace_stop_ascii.
  apply Forall_rev, skip_space_Forall. by apply all_Forall.
Qed.

Lemma skip_space_pad pad l :
  Forall (fun c => bytes.asciiSpace c = true) pad -> skip_space (pad ++ l) = skip_space l.
Proof. induction 1 as [|c pad Hc _ IH]; cbn [app skip_space]; [done | by rewrite Hc]. Qed.

Lemma skip_space_all pad :
  Forall (fun c => bytes.asciiSpace c = true) pad -> skip_space pad = [].
Proof. intros Hp. rewrite <- (app_nil_r pad). by rewrite skip_space_pad. Qed.

Lemma skip_space_app_nonempty l pad :
  skip_space l <> [] -> skip_space (l ++ pad) = skip_space l ++ pad.
Proof.
  induction l as [|c l IH]; cbn [app skip_space]; [done |].
  destruct (bytes.asciiSpace c); [exact IH | done].
Qed.

Lemma skip_space_only_spaces l :
  skip_space l = [] -> Forall (fun c => bytes.asciiSpace c = true) l.
Proof.
  induction l as [|c l IH]; cbn [skip_space]; [constructor |].
  destruct (bytes.asciiSpace c) eqn:E; [| done]. intros Hl. constructor; auto.
Qed.

Lemma trimmed_padded pad1 s pad2 :
  strings.all bytes.asciiSpace pad1 = true ->
  strings.all bytes.asciiSpace pad2 = true ->
  trimmed (pad1 +:+ s +:+ pad2) = trimmed s.
Proof.
  intros H1 H2. apply all_Forall in H1, H2. unfold trimmed. f_equal. f_equal.
  rewrite !list_of_append, skip_space_pad by done.
  destruct (skip_space (list_ascii_of_string s)) as [|c rest] eqn:E.
  - rewrite skip_space_pad by (by apply skip_space_only_spaces).
    by rewrite (skip_space_all _ H2).
  - rewrite skip_space_app_nonempty by (by rewrite E). rewrite E.
    rewrite rev_app_distr. apply skip_space_pad. by apply Forall_rev.
Qed.

Lemma space_is_ASCII c : bytes.asciiSpace c = true -> bytes.isASCII c = true.
Proof.
  unfold bytes.asciiSpace, bytes.isASCII, bytes.RuneSelf.
  rewrite !orb_true_iff, !N.eqb_eq, N.ltb_lt. lia.
Qed.

Lemma all_app f s t : strings.all f (s +:+ t) = strings.all f s && strings.all f t.
Proof. induction s as [|c s IH]; simpl; [done | by rewrite IH, andb_assoc]. Qed.

Lemma all_impl (f g : ascii -> bool) s :
  (forall c, f c = true -> g c = true) -> strings.all f s = true -> strings.all g s = true.
Proof.
  intros Hfg. induction s as [|c s IH]; cbn [strings.all]; [done |].
  rewrite !andb_true_iff. intros [Hc Hs]. auto.
Qed.

(** On ASCII text [strings.TrimSpace] gives the same for a text and for
    the text with ASCII white space put around it. *)
Lemma TrimSpace_padded pad1 s pad2 :
  strings.all bytes.asciiSpace pad1 = true ->
  strings.all bytes.asciiSpace pad2 = true ->
  strings.all bytes.isASCII s = true ->
  strings.TrimSpace (pad1 +:+ s +:+ pad2) = strings.TrimSpace s.
Proof.
  intros H1 H2 Hs. rewrite !TrimSpace_ascii, trimmed_padded; try done.
  rewrite !all_app, Hs, (all_impl _ _ pad1 space_is_ASCII H1),
    (all_impl _ _ pad2 space_is_ASCII H2). done.
Qed.

(** X17.  ASCII white space around an ASCII value is ignored by the
    Boolean plugin (line 32 trims before comparing) and by the IP
    plugin (line 86 trims before parsing): the padded value gets the
    result of the value itself. *)
Theorem surrounding_white_space_is_ignored key pad1 value pad2 :
  strings.all bytes.asciiSpace pad1 = true ->
  strings.all bytes.asciiSpace pad2 = true ->
  strings.all bytes.isASCII value = true ->
  (forall p : BooleanValidationPlugin.t,
     BooleanValidationPlugin.Validate p key (pad1 +:+ value +:+ pad2)
       = BooleanValidationPlugin.Validate p key value) /\
  (forall p : IPAddressValidationPlugin.t,
     IPAddressValidationPlugin.Validate p key (pad1 +:+ value +:+ pad2)
       = IPAddressValidationPlugin.Validate p key value).
Proof.
  intros H1 H2 Hs. split; intros p.
  - unfold BooleanValidationPlugin.Validate. by rewrite TrimSpace_padded.
  - unfold IPAddressValidationPlugin.Validate. by rewrite TrimSpace_padded.
Qed.

Lemma asciiSpace_lower c : bytes.asciiSpace (bytes.lower c) = bytes.asciiSpace c.
Proof.
  unfold bytes.lower. destruct (bytes.isUpper c) eqn:E; [| done].
  unfold bytes.isUpper in E. apply andb_prop in E as [E1 E2].
  apply N.leb_le in E1, E2. unfold bytes.asciiSpace, bytes.code in *.
  rewrite N_ascii_embedding by lia.
  repeat match goal with |- context [(?a =? ?b)%N] =>
    rewrite (proj2 (N.eqb_neq a b)) by lia end.
  reflexivity.
Qed.

Lemma lower_not_upper s :
  strings.any bytes.isUpper s = false -> strings.map bytes.lower s = s.
Proof.
  induction s as [|c s IH]; cbn [strings.any strings.map]; [done |].
  intros Hs. apply orb_false_elim in Hs as [Hc Hs].
  unfold bytes.lower at 1. by rewrite Hc, IH.
Qed.

(** On ASCII text [strings.ToLower] maps every byte to lower case. *)
Lemma ToLower_ascii s :
  strings.all bytes.isASCII s = true -> strings.ToLower s = strings.map bytes.lower s.
Proof.
  intros Hs. unfold strings.ToLower. rewrite Hs.
  destruct (strings.any bytes.isUpper s) eqn:E; [done | by rewrite lower_not_upper].
Qed.

Lemma skip_space_lower l :
  skip_space (List.map bytes.lower l) = List.map bytes.lower (skip_space l).
Proof.
  induction l as [|c l IH]; cbn [List.map skip_space]; [done |].
  rewrite asciiSpace_lower. by destruct (bytes.asciiSpace c).
Qed.

Lemma trimmed_lower s :
  trimmed (strings.map bytes.lower s) = strings.map bytes.lower (trimmed s).
Proof.
  unfold trimmed.
  by rewrite list_of_map, skip_space_lower, <- map_rev, skip_space_lower, <- map_rev,
    string_of_map.
Qed.

Lemma trimmed_ascii s :
  strings.all bytes.isASCII s = true -> strings.all bytes.isASCII (trimmed s) = true.
Proof.
  intros Hs. apply all_Forall. unfold trimmed.
  rewrite list_ascii_of_string_of_list_ascii.
  apply Forall_rev, skip_space_Forall, Forall_rev, skip_space_Forall.
  by apply all_Forall.
Qed.

(** The text the Boolean plugin compares, for an ASCII value. *)
Lemma normalized_ascii value :
  strings.all bytes.isASCII value = true ->
  strings.ToLower (strings.TrimSpace value) = trimmed (strings.map bytes.lower value).
Proof.
  intros Hv. rewrite TrimSpace_ascii, ToLower_ascii, trimmed_lower; try done.
  by apply trimmed_ascii.
Qed.

(** X18.  The Boolean plugin lower-cases the value before it compares
    (line 32): two ASCII values that differ only in the case of their
    letters get the same result. *)
Theorem Boolean_ignores_letter_case (p : BooleanValidationPlugin.t) key value value' :
  strings.all bytes.isASCII value = true ->
  strings.all bytes.isASCII value' = true ->
  strings.map bytes.lower value = strings.map bytes.lower value' ->
  BooleanValidationPlugin.Validate p key value
    = BooleanValidationPlugin.Validate p key value'.
Proof.
  intros Hv Hv' Heq. unfold BooleanValidationPlugin.Validate.
  by rewrite !normalized_ascii, Heq.
Qed.

End trimming.

(** * Examples for the further properties *)

Lemma load_failure_is_returned_witness :
  let G := example_stdlib in
  let w := world_without_file no_such_file in
  let v := NewValidator (example_config []) ["DB_HOST"] in
  godotenv_Read w ".env" = inr no_such_file /\
  snd (ValidateDotEnv w v ".env")
    = Some (errorString ("failed to load .env file: " +:+ Error no_such_file)) /\
  requiredKeys (fst (ValidateDotEnv w v ".env")) = requiredKeys v.
Proof.
  intros G w v.
  assert (godotenv_Read w ".env" = inr no_such_file) as H1 by reflexivity.
  exact (conj H1 (load_failure_is_returned w v ".env" no_such_file H1)).
Defined.

Lemma success_iff_all_pass_and_nothing_missing_witness :
  let G := example_stdlib in
  let w := world_of custom_key_only in
  let v := NewValidator (example_config []) ["CUSTOM_KEY"] in
  (World_ok w /\ godotenv_Read w ".env" = inl custom_key_only) /\
  (snd (ValidateDotEnv w v ".env") = None <->
   passes (plugins v) (map_to_list custom_key_only) /\
   forall k, requiredKeys v !! k = Some false -> is_Some (custom_key_only !! k)).
Proof.
  intros G w v.
  assert (World_ok w) as H1 by (split; intros m; reflexivity).
  assert (godotenv_Read w ".env" = inl custom_key_only) as H2 by reflexivity.
  exact (conj (conj H1 H2)
           (success_iff_all_pass_and_nothing_missing w v ".env" custom_key_only H1 H2)).
Defined.

Lemma failure_kinds_witness :
  let G := example_stdlib in
  let w := world_of db_host_only in
  let v := NewValidator (example_config []) ["API_KEY"] in
  let e := errorString "missing required keys: [API_KEY]" in
  (World_ok w /\ snd (ValidateDotEnv w v ".env") = Some e) /\
  ((exists err, godotenv_Read w ".env" = inr err /\
                e = errorString ("failed to load .env file: " +:+ Error err)) \/
   (exists envVars k val p,
      godotenv_Read w ".env" = inl envVars /\ envVars !! k = Some val /\
      p ∈ plugins v /\ snd (plugin_Validate p k val) = Some e) \/
   (exists envVars missing,
      godotenv_Read w ".env" = inl envVars /\
      passes (plugins v) (map_to_list envVars) /\
      missing <> [] /\ NoDup missing /\ e = missing_error missing /\
      forall k, k ∈ missing <->
                requiredKeys v !! k = Some false /\ envVars !! k = None)).
Proof.
  intros G w v e.
  assert (World_ok w) as H1 by (split; intros m; reflexivity).
  assert (snd (ValidateDotEnv w v ".env") = Some e) as H2
    by (vm_compute; reflexivity).
  exact (conj (conj H1 H2) (failure_kinds w v ".env" e H1 H2)).
Defined.

Lemma second_run_reports_keys_missing_from_both_witness :
  let G := example_stdlib in
  let w1 := world_of db_host_only in
  let w2 := world_of custom_key_only in
  let required := ["DB_HOST"; "CUSTOM_KEY"; "API_KEY"] in
  let v := NewValidator (example_config []) required in
  (World_ok w1 /\ World_ok w2 /\
   godotenv_Read w1 "first.env" = inl db_host_only /\
   godotenv_Read w2 "second.env" = inl custom_key_only /\
   passes (plugins v) (map_to_list db_host_only) /\
   passes (plugins v) (map_to_list custom_key_only)) /\
  exists missing,
    NoDup missing /\
    (forall k, k ∈ missing <->
               k ∈ required /\ db_host_only !! k = None /\
               custom_key_only !! k = None) /\
    snd (ValidateDotEnv w2 (fst (ValidateDotEnv w1 v "first.env")) "second.env")
      = match missing with
        | [] => None
        | _ => Some (missing_error missing)
        end.
Proof.
  intros G w1 w2 required v.
  assert (World_ok w1) as H1 by (split; intros m; reflexivity).
  assert (World_ok w2) as H2 by (split; intros m; reflexivity).
  assert (godotenv_Read w1 "first.env" = inl db_host_only) as H3 by reflexivity.
  assert (godotenv_Read w2 "second.env" = inl custom_key_only) as H4 by reflexivity.
  assert (passes (plugins v) (map_to_list db_host_only)) as H5.
  { assert (map_to_list db_host_only = [("DB_HOST", "localhost")]) as ->
      by (vm_compute; reflexivity).
    intros k val p Hin Hp. in_list Hin.
    cbn [v plugins NewValidator example_config Plugins app] in Hp.
    rewrite app_nil_r in Hp. unfold loadBuiltInPlugins in Hp.
    in_list Hp; reflexivity. }
  assert (passes (plugins v) (map_to_list custom_key_only)) as H6.
  { assert (map_to_list custom_key_only = [("CUSTOM_KEY", "anything")]) as ->
      by (vm_compute; reflexivity).
    intros k val p Hin Hp. in_list Hin.
    cbn [v plugins NewValidator example_config Plugins app] in Hp.
    rewrite app_nil_r in Hp. unfold loadBuiltInPlugins in Hp.
    in_list Hp; reflexivity. }
  split; [exact (conj H1 (conj H2 (conj H3 (conj H4 (conj H5 H6))))) |].
  exact (second_run_reports_keys_missing_from_both w1 w2 (example_config [])
           required "first.env" "second.env" db_host_only custom_key_only
           H1 H2 H3 H4 H5 H6).
Defined.

Lemma quiet_run_writes_two_lines_witness :
  let G := example_stdlib in
  let w := world_of db_host_only in
  let v := NewValidator (example_config []) ["DB_HOST"] in
  (Verbose (config v) = false /\
   logrus.IsLevelEnabled (effective_Logger v) logrus.InfoLevel = true) /\
  exists lg',
    Logger (config (fst (ValidateDotEnv w v ".env"))) = Some lg' /\
    logrus.written lg' = [start_line ".env"; valid_line].
Proof.
  intros G w v.
  assert (Verbose (config v) = false) as H1 by reflexivity.
  assert (logrus.IsLevelEnabled (effective_Logger v) logrus.InfoLevel = true) as H2
    by reflexivity.
  split; [exact (conj H1 H2) |].
  destruct (quiet_run_writes_two_lines w v ".env" H1 H2) as (lg' & Hlg & Hrun).
  exists lg'. split; [exact Hlg |].
  change (godotenv_Read w ".env") with (@inl (gmap string string) error db_host_only) in Hrun.
  cbv beta iota in Hrun. destruct Hrun as (line & Hw & Hline).
  assert (snd (ValidateDotEnv w v ".env") = None) as Hv by (vm_compute; reflexivity).
  rewrite Hv in Hline. rewrite Hw, Hline. reflexivity.
Defined.

Lemma other_keys_are_left_to_the_caller_plugins_witness :
  let G := example_stdlib in
  let config := example_config [CacheSizeValidationPlugin.plugin] in
  ("CACHE_SIZE" ∉ builtin_keys) /\
  (forall q, q ∈ loadBuiltInPlugins ->
             plugin_Validate q "CACHE_SIZE" "64" = (false, None)) /\
  first_error (plugins (NewValidator config [])) "CACHE_SIZE" "64"
    = first_error (Plugins config) "CACHE_SIZE" "64".
Proof.
  intros G config.
  assert ("CACHE_SIZE" ∉ builtin_keys) as H1.
  { unfold builtin_keys. intros Hin.
    repeat (apply elem_of_cons in Hin as [Hin|Hin]; [discriminate Hin |]).
    apply elem_of_nil in Hin. destruct Hin. }
  exact (conj H1 (other_keys_are_left_to_the_caller_plugins config []
                    "CACHE_SIZE" "64" H1)).
Defined.

Lemma builtin_rejection_comes_first_witness :
  let G := example_stdlib in
  let w := world_of ftp_url_only in
  let config := example_config [deny_all] in
  let e := errorString ("URL scheme for key " +:+ strconv.Quote "API_URL"
                        +:+ " must be one of [https]") in
  (godotenv_Read w ".env" = inl ftp_url_only /\
   range_envVars w ftp_url_only = [] ++ ("API_URL", "ftp://x") :: [] /\
   passes (plugins (NewValidator config [])) [] /\
   first_error loadBuiltInPlugins "API_URL" "ftp://x" = Some e) /\
  snd (ValidateDotEnv w (NewValidator config []) ".env") = Some e.
Proof.
  intros G w config e.
  assert (godotenv_Read w ".env" = inl ftp_url_only) as H1 by reflexivity.
  assert (range_envVars w ftp_url_only = [] ++ ("API_URL", "ftp://x") :: [])
    as H2 by (vm_compute; reflexivity).
  assert (passes (plugins (NewValidator config [])) []) as H3
    by (intros k val p Hin; apply elem_of_nil in Hin; destruct Hin).
  assert (first_error loadBuiltInPlugins "API_URL" "ftp://x" = Some e) as H4
    by (vm_compute; reflexivity).
  split; [exact (conj H1 (conj H2 (conj H3 H4))) |].
  exact (builtin_rejection_comes_first w config [] ".env" ftp_url_only []
           "API_URL" "ftp://x" [] e H1 H2 H3 H4).
Defined.

Lemma private_IPv4_ranges_witness :
  (is_byte 172 /\ is_byte 20 /\ is_byte 0 /\ is_byte 1) /\
  (IPAddressValidationPlugin.isPrivateIP (net.v4InV6Prefix ++ [172; 20; 0; 1]%Z) = true <->
   (172 = 10 \/ (172 = 172 /\ 16 <= 20 <= 31) \/ (172 = 192 /\ 20 = 168))%Z).
Proof.
  assert (is_byte 172) as Ha by (unfold is_byte; lia).
  assert (is_byte 20) as Hb by (unfold is_byte; lia).
  assert (is_byte 0) as Hc by (unfold is_byte; lia).
  assert (is_byte 1) as Hd by (unfold is_byte; lia).
  exact (conj (conj Ha (conj Hb (conj Hc Hd)))
           (private_IPv4_ranges 172 20 0 1 Ha Hb Hc Hd)).
Defined.

Lemma isPrivateIP_v6_witness :
  let ip : net.IP := [253; 0; 0; 0; 0; 0; 0; 0; 0; 0; 0; 0; 0; 0; 0; 1]%Z in
  (length ip = 16%nat /\ Forall is_byte ip /\ net.To4 ip = None) /\
  (IPAddressValidationPlugin.isPrivateIP ip = true <->
   ip = loopback6 \/ nth 0 ip 0%Z = 252%Z \/ nth 0 ip 0%Z = 253%Z).
Proof.
  intros ip.
  assert (length ip = 16%nat) as H1 by reflexivity.
  assert (Forall is_byte ip) as H2
    by (unfold ip; repeat constructor; unfold is_byte; lia).
  assert (net.To4 ip = None) as H3 by reflexivity.
  exact (conj (conj H1 (conj H2 H3)) (isPrivateIP_v6 ip H1 H2 H3)).
Defined.

Lemma builtin_IP_plugin_accepts_private_IPv4_only_witness :
  let G := example_stdlib in
  (net.ParseIP (strings.TrimSpace "192.168.1.100")
     = Some (net.v4InV6Prefix ++ [192; 168; 1; 100]%Z) /\
   is_byte 192 /\ is_byte 168 /\ is_byte 1 /\ is_byte 100) /\
  (accepts (IPAddressValidationPlugin.Validate (builtin_IP_plugin "TRUSTED_PROXY_IP")
              "TRUSTED_PROXY_IP" "192.168.1.100") <->
   private_v4 192 168 = true).
Proof.
  intros G.
  assert (net.ParseIP (strings.TrimSpace "192.168.1.100")
          = Some (net.v4InV6Prefix ++ [192; 168; 1; 100]%Z)) as H1
    by (vm_compute; reflexivity).
  assert (is_byte 192) as Ha by (unfold is_byte; lia).
  assert (is_byte 168) as Hb by (unfold is_byte; lia).
  assert (is_byte 1) as Hc by (unfold is_byte; lia).
  assert (is_byte 100) as Hd by (unfold is_byte; lia).
  exact (conj (conj H1 (conj Ha (conj Hb (conj Hc Hd))))
           (builtin_IP_plugin_accepts_private_IPv4_only "TRUSTED_PROXY_IP"
              "192.168.1.100" 192 168 1 100 H1 Ha Hb Hc Hd)).
Defined.

Lemma unknown_version_names_reject_everything_witness :
  let G := example_stdlib in
  let p := misspelt_version_plugin in
  (IPAddressValidationPlugin.AllowedIPVersions p <> [] /\
   (forall version, version ∈ IPAddressValidationPlugin.AllowedIPVersions p ->
      strings.ToLower version <> "ipv4" /\ strings.ToLower version <> "ipv6")) /\
  rejects (IPAddressValidationPlugin.Validate p (IPAddressValidationPlugin.Key p)
             "10.0.0.1").
Proof.
  intros G p.
  assert (IPAddressValidationPlugin.AllowedIPVersions p <> []) as H1
    by (intros E; discriminate E).
  assert (forall version, version ∈ IPAddressValidationPlugin.AllowedIPVersions p ->
            strings.ToLower version <> "ipv4" /\ strings.ToLower version <> "ipv6")
    as H2.
  { intros version Hin.
    cbn [p misspelt_version_plugin IPAddressValidationPlugin.AllowedIPVersions] in Hin.
    in_list Hin. split; vm_compute; intros E; discriminate E. }
  exact (conj (conj H1 H2)
           (unknown_version_names_reject_everything p "10.0.0.1" H1 H2)).
Defined.

Lemma rejection_reasons_do_not_depend_on_the_value_witness :
  let G := example_stdlib in
  BooleanValidationPlugin.Validate debug_flag_plugin "ENABLE_DEBUG" "maybe"
    = BooleanValidationPlugin.Validate debug_flag_plugin "ENABLE_DEBUG" "2".
Proof.
  intros G.
  apply (proj1 (rejection_reasons_do_not_depend_on_the_value "ENABLE_DEBUG")
           debug_flag_plugin "maybe" "2");
    unfold rejects; vm_compute; eexists; reflexivity.
Defined.

Lemma Enum_ignores_letter_case_when_insensitive_witness :
  let G := example_stdlib in
  let p := insensitive_environment_plugin in
  (EnumValidationPlugin.CaseSensitive p = false /\
   strings.all bytes.isASCII "Production" = true /\
   strings.all bytes.isASCII "PRODUCTION" = true /\
   Forall (fun a => strings.all bytes.isASCII a = true)
          (EnumValidationPlugin.AllowedValues p) /\
   strings.map bytes.lower "Production" = strings.map bytes.lower "PRODUCTION") /\
  EnumValidationPlugin.Validate p "ENVIRONMENT" "Production"
    = EnumValidationPlugin.Validate p "ENVIRONMENT" "PRODUCTION".
Proof.
  intros G p.
  assert (EnumValidationPlugin.CaseSensitive p = false) as H1 by reflexivity.
  assert (strings.all bytes.isASCII "Production" = true) as H2 by reflexivity.
  assert (strings.all bytes.isASCII "PRODUCTION" = true) as H3 by reflexivity.
  assert (Forall (fun a => strings.all bytes.isASCII a = true)
                 (EnumValidationPlugin.AllowedValues p)) as H4
    by (repeat constructor).
  assert (strings.map bytes.lower "Production" = strings.map bytes.lower "PRODUCTION")
    as H5 by reflexivity.
  exact (conj (conj H1 (conj H2 (conj H3 (conj H4 H5))))
           (Enum_ignores_letter_case_when_insensitive p "ENVIRONMENT"
              "Production" "PRODUCTION" H1 H2 H3 H4 H5)).
Defined.

Lemma surrounding_white_space_is_ignored_witness :
  let G := example_stdlib in
  (strings.all bytes.asciiSpace " " = true /\
   strings.all bytes.asciiSpace "  " = true /\
   strings.all bytes.isASCII "10.0.0.1" = true) /\
  (forall p : BooleanValidationPlugin.t,
     BooleanValidationPlugin.Validate p "TRUSTED_PROXY_IP" (" " +:+ "10.0.0.1" +:+ "  ")
       = BooleanValidationPlugin.Validate p "TRUSTED_PROXY_IP" "10.0.0.1") /\
  (forall p : IPAddressValidationPlugin.t,
     IPAddressValidationPlugin.Validate p "TRUSTED_PROXY_IP" (" " +:+ "10.0.0.1" +:+ "  ")
       = IPAddressValidationPlugin.Validate p "TRUSTED_PROXY_IP" "10.0.0.1").
Proof.
  intros G.
  assert (strings.all bytes.asciiSpace " " = true) as H1 by reflexivity.
  assert (strings.all bytes.asciiSpace "  " = true) as H2 by reflexivity.
  assert (strings.all bytes.isASCII "10.0.0.1" = true) as H3 by reflexivity.
  exact (conj (conj H1 (conj H2 H3))
           (surrounding_white_space_is_ignored "TRUSTED_PROXY_IP" " " "10.0.0.1" "  "
              H1 H2 H3)).
Defined.

Lemma Boolean_ignores_letter_case_witness :
  let G := example_stdlib in
  (strings.all bytes.isASCII "TRUE" = true /\
   strings.all bytes.isASCII "True" = true /\
   strings.map bytes.lower "TRUE" = strings.map bytes.lower "True") /\
  BooleanValidationPlugin.Validate debug_flag_plugin "ENABLE_DEBUG" "TRUE"
    = BooleanValidationPlugin.Validate debug_flag_plugin "ENABLE_DEBUG" "True".
Proof.
  intros G.
  assert (strings.all bytes.isASCII "TRUE" = true) as H1 by reflexivity.
  assert (strings.all bytes.isASCII "True" = true) as H2 by reflexivity.
  assert (strings.map bytes.lower "TRUE" = strings.map bytes.lower "True") as H3
    by reflexivity.
  exact (conj (conj H1 (conj H2 H3))
           (Boolean_ignores_letter_case debug_flag_plugin "ENABLE_DEBUG" "TRUE" "True"
              H1 H2 H3)).
Defined.
